(** * Voice turn coordinator: [useSpeechRecognition] and the hands-free loop

    A shallow embedding of [src/hooks/useSpeechRecognition.ts] and of the
    voice handlers of the [App] component, with the properties of the
    turn-taking specification stated and proved over it.

    Conventions of the embedding.
    - A JavaScript string is the list of its UTF-16 code units; [s + t] is
      list append and a string is truthy exactly when it is not empty.
    - React state is a record. A function defined during a render reads the
      state values of that render, so every handler takes the values it
      captured as an explicit argument ([Handlers] for the recognizer's
      handlers, [Snapshot] for the functions the hook returns, [App.Render]
      for the functions of [App]).
    - Each source function is one command on the store it works on. When the
      platform delivers an event, when a timer is due and when React runs an
      effect or its cleanup are inputs: a run is a list of such events.
    - Calls to the platform (recognizer, timers, registered callback) are
      appended to a trace, oldest first. *)

From Stdlib Require Import List Bool NArith PArith Lia.
From Stdlib Require String Ascii.
Import ListNotations.
Import String.StringSyntax.
Delimit Scope string_scope with string.

Set Implicit Arguments.

(** ** JavaScript strings *)

Module JS.

Local Open Scope N_scope.

Definition jsstring := list N.

(** [if (s)] on a string. *)
Definition truthy (s : jsstring) : bool :=
  match s with [] => false | _ :: _ => true end.

(** An ASCII literal of the source, as code units. *)
Definition lit (s : String.string) : jsstring :=
  map Ascii.N_of_ascii (String.list_ascii_of_string s).

(** WhiteSpace and LineTerminator code units of ECMAScript, the ones
    [String.prototype.trim] removes. *)
Definition is_space (c : N) : bool :=
  ((9 <=? c) && (c <=? 13)) || (c =? 32) || (c =? 160) || (c =? 5760)
  || ((8192 <=? c) && (c <=? 8202)) || (c =? 8232) || (c =? 8233)
  || (c =? 8239) || (c =? 8287) || (c =? 12288) || (c =? 65279).

Fixpoint trim_start (s : jsstring) : jsstring :=
  match s with
  | c :: s' => if is_space c then trim_start s' else s
  | [] => []
  end.

Definition trim (s : jsstring) : jsstring :=
  rev (trim_start (rev (trim_start s))).

End JS.
Import JS.

Arguments lit s%_string.

(** ** The platform's recognition events *)

(** A [SpeechRecognitionResult]: the handler reads [isFinal] and the
    transcript of the first alternative, [result[0].transcript]. *)
Record SpeechRecognitionResult := {
  isFinal : bool;
  alt0 : jsstring
}.

Record SpeechRecognitionEvent := {
  results : list SpeechRecognitionResult;
  resultIndex : nat
}.

(** The loop of [recognition.onresult]: from [resultIndex] to the end of
    [results], each result is appended to one of the two accumulators.
    The pair is [(interimTranscript, currentFinalTranscript)]. *)
Definition scan_step (acc : jsstring * jsstring) (result : SpeechRecognitionResult)
  : jsstring * jsstring :=
  let '(interimTranscript, currentFinalTranscript) := acc in
  if isFinal result
  then (interimTranscript, currentFinalTranscript ++ alt0 result)
  else (interimTranscript ++ alt0 result, currentFinalTranscript).

Definition scan_results (event : SpeechRecognitionEvent) : jsstring * jsstring :=
  fold_left scan_step (skipn (resultIndex event) (results event)) ([], []).

(** ** State of the hook *)

Definition RecognitionId := positive.
Definition TimerId := positive.

(** The four [useState] cells. A value of this type is also what one
    render sees, and what the closures created by that render capture. *)
Record Snapshot := {
  isListening : bool;
  transcript : jsstring;
  finalTranscript : jsstring;
  isSupported : bool
}.

(** What the handlers installed by one run of the effect close over: the
    render's state values and the [recognition] object created by that run. *)
Record Handlers := {
  render : Snapshot;
  recognition : RecognitionId
}.

(** A pending [setTimeout]: the only timer callback of the hook is the
    silence callback, which closes over [Handlers]. *)
Record Timer := {
  timer_id : TimerId;
  due : N;
  timer_env : Handlers
}.

Section Hook.

(** The type of the functions a caller passes as [onSpeechEnd]. *)
Variable Cb : Type.

Inductive Action :=
| RecStart (r : RecognitionId)
| RecStop (r : RecognitionId)
| RecAbort (r : RecognitionId)
| SetTimeout (t : TimerId) (delay : N)
| ClearTimeout (t : TimerId)
| CallOnSpeechEnd (cb : Cb) (text : jsstring)
| ConsoleError (kind : jsstring).

Record Sys := {
  state : Snapshot;
  recognitionRef : option RecognitionId;
  silenceTimerRef : option TimerId;
  onSpeechEndRef : option Cb;
  clock : N;
  nextTimer : TimerId;
  nextRecognition : RecognitionId;
  timers : list Timer;
  trace : list Action
}.

Definition Cmd := Sys -> Sys.

Definition seq (c1 c2 : Cmd) : Cmd := fun s => c2 (c1 s).
Definition skip : Cmd := fun s => s.
Definition when (b : bool) (c : Cmd) : Cmd := if b then c else skip.

Notation "c1 ;; c2" := (seq c1 c2) (at level 61, right associativity).

(** *** Primitive commands *)

Definition modify_state (f : Snapshot -> Snapshot) : Cmd := fun s =>
  {| state := f (state s); recognitionRef := recognitionRef s;
     silenceTimerRef := silenceTimerRef s; onSpeechEndRef := onSpeechEndRef s;
     clock := clock s; nextTimer := nextTimer s;
     nextRecognition := nextRecognition s; timers := timers s;
     trace := trace s |}.

Definition setIsListening (b : bool) : Cmd :=
  modify_state (fun r =>
    {| isListening := b; transcript := transcript r;
       finalTranscript := finalTranscript r; isSupported := isSupported r |}).

Definition setTranscript (t : jsstring) : Cmd :=
  modify_state (fun r =>
    {| isListening := isListening r; transcript := t;
       finalTranscript := finalTranscript r; isSupported := isSupported r |}).

(** [setFinalTranscript(f)] with an updater function [f]. *)
Definition updFinalTranscript (f : jsstring -> jsstring) : Cmd :=
  modify_state (fun r =>
    {| isListening := isListening r; transcript := transcript r;
       finalTranscript := f (finalTranscript r); isSupported := isSupported r |}).

Definition setFinalTranscript (t : jsstring) : Cmd :=
  updFinalTranscript (fun _ => t).

Definition setIsSupported (b : bool) : Cmd :=
  modify_state (fun r =>
    {| isListening := isListening r; transcript := transcript r;
       finalTranscript := finalTranscript r; isSupported := b |}).

Definition emit (a : Action) : Cmd := fun s =>
  {| state := state s; recognitionRef := recognitionRef s;
     silenceTimerRef := silenceTimerRef s; onSpeechEndRef := onSpeechEndRef s;
     clock := clock s; nextTimer := nextTimer s;
     nextRecognition := nextRecognition s; timers := timers s;
     trace := trace s ++ [a] |}.

Definition set_onSpeechEndRef (cb : option Cb) : Cmd := fun s =>
  {| state := state s; recognitionRef := recognitionRef s;
     silenceTimerRef := silenceTimerRef s; onSpeechEndRef := cb;
     clock := clock s; nextTimer := nextTimer s;
     nextRecognition := nextRecognition s; timers := timers s;
     trace := trace s |}.

Definition set_timers (ts : list Timer) : Cmd := fun s =>
  {| state := state s; recognitionRef := recognitionRef s;
     silenceTimerRef := silenceTimerRef s; onSpeechEndRef := onSpeechEndRef s;
     clock := clock s; nextTimer := nextTimer s;
     nextRecognition := nextRecognition s; timers := ts;
     trace := trace s |}.

Definition set_clock (now : N) : Cmd := fun s =>
  {| state := state s; recognitionRef := recognitionRef s;
     silenceTimerRef := silenceTimerRef s; onSpeechEndRef := onSpeechEndRef s;
     clock := now; nextTimer := nextTimer s;
     nextRecognition := nextRecognition s; timers := timers s;
     trace := trace s |}.

(** [clearTimeout(t)]: the host drops the timer if it is still pending. *)
Definition clearTimeout (t : TimerId) : Cmd := fun s =>
  (set_timers (filter (fun x => negb (Pos.eqb (timer_id x) t)) (timers s)) ;;
   emit (ClearTimeout t)) s.

(** [silenceTimerRef.current = setTimeout(callback, delay)], the callback
    being the silence callback of [h]. *)
Definition armSilenceTimer (h : Handlers) (delay : N) : Cmd := fun s =>
  let t := nextTimer s in
  {| state := state s; recognitionRef := recognitionRef s;
     silenceTimerRef := Some t; onSpeechEndRef := onSpeechEndRef s;
     clock := clock s; nextTimer := Pos.succ t;
     nextRecognition := nextRecognition s;
     timers := timers s ++ [{| timer_id := t; due := clock s + delay; timer_env := h |}];
     trace := trace s ++ [SetTimeout t delay] |}.

(** [if (silenceTimerRef.current) clearTimeout(silenceTimerRef.current)] *)
Definition clearSilenceTimer : Cmd := fun s =>
  match silenceTimerRef s with
  | Some t => clearTimeout t s
  | None => s
  end.

(** *** The handlers installed by the effect *)

Definition onstart : Cmd :=
  setIsListening true ;;
  setTranscript [] ;;
  setFinalTranscript [].

(** [finalTranscript] is the captured one; the callback is read from the
    ref at the time of the event. *)
Definition onend (h : Handlers) : Cmd :=
  setIsListening false ;;
  fun s =>
    match truthy (finalTranscript (render h)), onSpeechEndRef s with
    | true, Some cb =>
        (emit (CallOnSpeechEnd cb (finalTranscript (render h))) ;;
         setFinalTranscript []) s
    | _, _ => s
    end.

Definition onresult (h : Handlers) (event : SpeechRecognitionEvent) : Cmd :=
  let '(interimTranscript, currentFinalTranscript) := scan_results event in
  when (truthy currentFinalTranscript)
    (updFinalTranscript (fun prev => prev ++ currentFinalTranscript)) ;;
  setTranscript interimTranscript ;;
  clearSilenceTimer ;;
  armSilenceTimer h 2000.

(** The function passed to [setTimeout] by [onresult]. *)
Definition silenceCallback (h : Handlers) : Cmd := fun s =>
  match recognitionRef s with
  | Some _ => when (isListening (render h)) (emit (RecStop (recognition h))) s
  | None => s
  end.

Definition onerror (error : jsstring) : Cmd :=
  emit (ConsoleError error) ;;
  setIsListening false ;;
  clearSilenceTimer.

(** The function returned by the effect. *)
Definition cleanup : Cmd :=
  (fun s => match recognitionRef s with
            | Some r => emit (RecAbort r) s
            | None => s
            end) ;;
  clearSilenceTimer.

(** The body of the effect for a render [r]; [available] tells whether
    [window.SpeechRecognition || window.webkitSpeechRecognition] exists.
    The result is the new state and the closure of the handlers the run
    installed, if it installed any. *)
Definition effect (available : bool) (r : Snapshot) (s : Sys)
  : Sys * option Handlers :=
  if available then
    let s1 := setIsSupported true s in
    let rec := nextRecognition s1 in
    ({| state := state s1; recognitionRef := Some rec;
        silenceTimerRef := silenceTimerRef s1;
        onSpeechEndRef := onSpeechEndRef s1;
        clock := clock s1; nextTimer := nextTimer s1;
        nextRecognition := Pos.succ rec; timers := timers s1;
        trace := trace s1 |},
     Some {| render := r; recognition := rec |})
  else (s, None).

(** *** The functions returned to the caller, for a render [r] *)

Definition startListening (r : Snapshot) (onSpeechEnd : option Cb) : Cmd := fun s =>
  match recognitionRef s with
  | Some rec =>
      when (negb (isListening r))
        (set_onSpeechEndRef onSpeechEnd ;;
         setTranscript [] ;;
         setFinalTranscript [] ;;
         emit (RecStart rec)) s
  | None => s
  end.

Definition stopListening (r : Snapshot) : Cmd :=
  (fun s => match recognitionRef s with
            | Some rec => when (isListening r) (emit (RecStop rec)) s
            | None => s
            end) ;;
  clearSilenceTimer.

Definition resetTranscript : Cmd :=
  setTranscript [] ;;
  setFinalTranscript [].

(** The [transcript] field of the returned object. *)
Definition exposedTranscript (r : Snapshot) : jsstring :=
  finalTranscript r ++ transcript r.

(** *** The host's timers *)

(** The pending timer that is due first and not after [target]; among
    timers due at the same instant, the one armed first. *)
Fixpoint earliest (target : N) (ts : list Timer) : option Timer :=
  match ts with
  | [] => None
  | t :: ts' =>
      match earliest target ts' with
      | Some u => if (due t <=? due u)%N && (due t <=? target)%N then Some t else Some u
      | None => if (due t <=? target)%N then Some t else None
      end
  end.

(** A timer fires: it leaves the pending list and its callback runs. *)
Definition fire (t : Timer) : Cmd :=
  (fun s => set_timers
     (filter (fun x => negb (Pos.eqb (timer_id x) (timer_id t))) (timers s)) s) ;;
  silenceCallback (timer_env t).

Fixpoint run_timers (fuel : nat) (target : N) (s : Sys) : Sys :=
  match fuel with
  | O => s
  | S fuel' =>
      match earliest target (timers s) with
      | Some t => run_timers fuel' target (fire t (set_clock (N.max (clock s) (due t)) s))
      | None => s
      end
  end.

(** [d] milliseconds pass with no other event. No timer callback of the
    hook arms a timer, so one round per pending timer is enough. *)
Definition elapse (d : N) : Cmd := fun s =>
  set_clock (clock s + d) (run_timers (length (timers s)) (clock s + d)%N s).

(** *** Events, as the hook receives them *)

Inductive Event :=
| OnStart
| OnEnd (h : Handlers)
| OnResult (h : Handlers) (event : SpeechRecognitionEvent)
| OnError (error : jsstring)
| Elapse (d : N)
| StartListening (r : Snapshot) (onSpeechEnd : option Cb)
| StopListening (r : Snapshot)
| ResetTranscript
| Cleanup.

Definition step (e : Event) : Cmd :=
  match e with
  | OnStart => onstart
  | OnEnd h => onend h
  | OnResult h event => onresult h event
  | OnError error => onerror error
  | Elapse d => elapse d
  | StartListening r cb => startListening r cb
  | StopListening r => stopListening r
  | ResetTranscript => resetTranscript
  | Cleanup => cleanup
  end.

Definition run (es : list Event) (s : Sys) : Sys :=
  fold_left (fun s e => step e s) es s.

(** The hook right after it is mounted, before the first effect. *)
Definition mounted : Sys :=
  {| state := {| isListening := false; transcript := [];
                 finalTranscript := []; isSupported := false |};
     recognitionRef := None; silenceTimerRef := None; onSpeechEndRef := None;
     clock := 0; nextTimer := 1%positive; nextRecognition := 1%positive;
     timers := []; trace := [] |}.

End Hook.

Arguments mounted {Cb}.
Arguments OnStart {Cb}.
Arguments OnEnd {Cb} h.
Arguments OnResult {Cb} h event.
Arguments OnError {Cb} error.
Arguments Elapse {Cb} d.
Arguments StopListening {Cb} r.
Arguments ResetTranscript {Cb}.
Arguments Cleanup {Cb}.
Arguments RecStart {Cb} r.
Arguments RecStop {Cb} r.
Arguments RecAbort {Cb} r.
Arguments SetTimeout {Cb} t delay.
Arguments ClearTimeout {Cb} t.
Arguments ConsoleError {Cb} kind.

(** ** What an event reports, in the words of the specification *)

(** The results of an event that are new: those from [resultIndex] on. *)
Definition new_results (event : SpeechRecognitionEvent) : list SpeechRecognitionResult :=
  skipn (resultIndex event) (results event).

(** The segments the event marks final, in order, concatenated. *)
Definition final_text (event : SpeechRecognitionEvent) : jsstring :=
  concat (map alt0 (filter isFinal (new_results event))).

(** The non-final portion of the event. *)
Definition interim_text (event : SpeechRecognitionEvent) : jsstring :=
  concat (map alt0 (filter (fun r => negb (isFinal r)) (new_results event))).


(** ** The voice handlers of the [App] component *)

Module App.

Inductive Mode := query | chat.
Inductive Sender := user | bot.

(** A message id is [data.id] or [Date.now().toString()]; the latter is
    kept as the clock reading it prints. *)
Inductive MessageId :=
| IdOfResponse (id : jsstring)
| IdOfClock (now : N).

(** The object literals [userMessage] and [botMessage]; [timestamp] is
    the clock reading of [new Date()]. *)
Record ChatMessage := {
  id : MessageId;
  type : Sender;
  message : jsstring;
  timestamp : N
}.

(** Modelled from the spec: [./types] and [./api] are not among the
    sources; a source has a title and a chunk, a response has an optional
    id, a text and an optional list of sources, and a failed call throws
    either a [ChatApiError] carrying a message or something else. *)
Record Source := {
  title : jsstring;
  chunk : jsstring
}.

Record ChatResponse := {
  response_id : option jsstring;
  textResponse : jsstring;
  response_sources : option (list Source)
}.

Inductive Thrown :=
| ChatApiError (error_message : jsstring)
| OtherError.

(** How [await sendChatMessage(...)] ends. *)
Inductive Outcome :=
| Resolves (data : ChatResponse)
| Throws (error : Thrown).

(** The [useState] cells the voice handlers read or write. *)
Record Cells := {
  messages : list ChatMessage;
  input : jsstring;
  isLoading : bool;
  sources : list Source;
  isVoiceMode : bool;
  mode : Mode
}.

(** What one render of [App] sees, and what the functions defined during
    that render capture: its own cells and the values returned by
    [useSpeechRecognition] for that render. *)
Record Render := {
  app : Cells;
  speech : Snapshot
}.

(** The arrow functions the handler hands to [speak] and [setTimeout]. *)
Inductive Callback :=
| AfterSpeech (r : Render)
| Relisten (r : Render).

Inductive Call :=
| StopSpeaking
| SendChatMessage (text : jsstring) (m : Mode) (sessionId : jsstring)
| Speak (text : jsstring) (onDone : option Callback)
| SetTimer (callback : Callback) (delay : N)
| LogError (error : Thrown)
| SetInput (text : jsstring).

(** The component with its recognition hook. The hook's stored callback
    is always [handleVoiceConversation] of some render, so a callback is
    named by that render. *)
Record World := {
  cells : Cells;
  recognizer : Sys Render;
  calls : list Call
}.

Definition Cmd := World -> World.

Definition seq (c1 c2 : Cmd) : Cmd := fun w => c2 (c1 w).
Definition skip : Cmd := fun w => w.
Definition when (b : bool) (c : Cmd) : Cmd := if b then c else skip.

Notation "c1 ;; c2" := (seq c1 c2) (at level 61, right associativity).

Definition modify_cells (f : Cells -> Cells) : Cmd := fun w =>
  {| cells := f (cells w); recognizer := recognizer w; calls := calls w |}.

Definition call (c : Call) : Cmd := fun w =>
  {| cells := cells w; recognizer := recognizer w; calls := calls w ++ [c] |}.

(** A function of the recognition hook runs on the hook's store. *)
Definition on_recognizer (c : Sys Render -> Sys Render) : Cmd := fun w =>
  {| cells := cells w; recognizer := c (recognizer w); calls := calls w |}.

(** [setMessages(prev => [...prev, m])] *)
Definition appendMessage (m : ChatMessage) : Cmd :=
  modify_cells (fun c =>
    {| messages := messages c ++ [m]; input := input c; isLoading := isLoading c;
       sources := sources c; isVoiceMode := isVoiceMode c; mode := mode c |}).

Definition setIsLoading (b : bool) : Cmd :=
  modify_cells (fun c =>
    {| messages := messages c; input := input c; isLoading := b;
       sources := sources c; isVoiceMode := isVoiceMode c; mode := mode c |}).

Definition setSources (l : list Source) : Cmd :=
  modify_cells (fun c =>
    {| messages := messages c; input := input c; isLoading := isLoading c;
       sources := l; isVoiceMode := isVoiceMode c; mode := mode c |}).

Definition setInput (text : jsstring) : Cmd :=
  modify_cells (fun c =>
    {| messages := messages c; input := text; isLoading := isLoading c;
       sources := sources c; isVoiceMode := isVoiceMode c; mode := mode c |}) ;;
  call (SetInput text).

(** ['Üzgünüm, bir hata oluştu. Lütfen tekrar deneyin.'] *)
Definition defaultErrorMessage : jsstring :=
  [220%N] ++ lit "zg" ++ [252%N] ++ lit "n" ++ [252%N] ++ lit "m, bir hata olu"
  ++ [351%N] ++ lit "tu. L" ++ [252%N] ++ lit "tfen tekrar deneyin.".

Definition sessionId : jsstring := lit "user-session-1".

(** [data.id || Date.now().toString()] *)
Definition botMessageId (data : ChatResponse) (now : N) : MessageId :=
  match response_id data with
  | Some i => if truthy i then IdOfResponse i else IdOfClock now
  | None => IdOfClock now
  end.

(** [handleVoiceConversation] as defined by render [r]. The call runs to
    its end with no other event in between: [now] is the clock when it
    starts, [outcome] is how the awaited backend call ends and [later] is
    the clock at that moment. *)
Definition handleVoiceConversation
    (r : Render) (spokenText : jsstring) (now : N) (outcome : Outcome) (later : N)
  : Cmd :=
  if negb (truthy (trim spokenText)) then skip
  else
    appendMessage {| id := IdOfClock now; type := user;
                     message := spokenText; timestamp := now |} ;;
    setIsLoading true ;;
    call StopSpeaking ;;
    call (SendChatMessage spokenText (mode (app r)) sessionId) ;;
    match outcome with
    | Resolves data =>
        appendMessage {| id := botMessageId data later; type := bot;
                         message := textResponse data; timestamp := later |} ;;
        match response_sources data with
        | Some (src :: l) => setSources (src :: l)
        | _ => setSources []
        end ;;
        when (truthy (textResponse data))
          (call (Speak (textResponse data) (Some (AfterSpeech r))))
    | Throws error =>
        let errorMessage :=
          match error with
          | ChatApiError m => m
          | OtherError => defaultErrorMessage
          end in
        call (LogError error) ;;
        appendMessage {| id := IdOfClock later; type := bot;
                         message := errorMessage; timestamp := later |} ;;
        when (isVoiceMode (app r)) (call (SetTimer (Relisten r) 2000))
    end ;;
    setIsLoading false.

(** The bodies of the two arrow functions. [startListening] is the one
    render [r] got from the hook, and the callback it registers is
    [handleVoiceConversation] of [r]. *)
Definition run_callback (cb : Callback) : Cmd :=
  match cb with
  | AfterSpeech r => when (isVoiceMode (app r)) (call (SetTimer (Relisten r) 1000))
  | Relisten r => on_recognizer (startListening (speech r) (Some r))
  end.

(** The render of the current state. *)
Definition render_of (w : World) : Render :=
  {| app := cells w; speech := state (recognizer w) |}.

(** The effect with dependencies [[transcript, isVoiceMode, resetTranscript]],
    for render [r]; [transcript] is the field the hook returns. *)
Definition transcriptEffect (r : Render) : Cmd :=
  when (truthy (exposedTranscript (speech r)) && negb (isVoiceMode (app r)))
    (setInput (exposedTranscript (speech r)) ;;
     on_recognizer (@resetTranscript Render)).

(** The state changes, [App] renders again and the effect runs. *)
Definition rerender : Cmd := fun w => transcriptEffect (render_of w) w.

(** The platform delivers a result event to the hook. *)
Definition deliver_result (h : Handlers) (event : SpeechRecognitionEvent) : Cmd :=
  on_recognizer (onresult h event).

(** The texts written to the input field, oldest first. *)
Definition input_writes (l : list Call) : list jsstring :=
  flat_map (fun c => match c with SetInput t => [t] | _ => [] end) l.

Definition spoken (l : list Call) : list jsstring :=
  flat_map (fun c => match c with Speak t _ => [t] | _ => [] end) l.

Definition timers_set (l : list Call) : list (Callback * N) :=
  flat_map (fun c => match c with SetTimer cb d => [(cb, d)] | _ => [] end) l.

End App.

(** ** Speech synthesis *)

Module Synthesis.

Section Synth.

(** The type of the functions a caller passes as [onDone]. *)
Variable Done : Type.

(** Modelled from the spec: [./hooks/useSpeechSynthesis] is not among
    the sources. The platform service takes an utterance (a text and a
    completion callback) to speak and has a stop call; the utterances
    it has been given and has neither finished nor been told to stop
    are the active ones. *)
Record Utterance := {
  text : jsstring;
  onDone : option Done
}.

Inductive Action :=
| PlatformSpeak (u : Utterance)
| PlatformStop
| CallOnDone (d : Done).

Record Synth := {
  isSpeaking : bool;
  active : list Utterance;
  trace : list Action
}.

Definition idle : Synth :=
  {| isSpeaking := false; active := []; trace := [] |}.

(** Modelled from the spec: [stopSpeaking()] immediately halts any
    in-progress synthesis and is a no-op when not speaking. *)
Definition stopSpeaking (s : Synth) : Synth :=
  if isSpeaking s
  then {| isSpeaking := false; active := []; trace := trace s ++ [PlatformStop] |}
  else s.

(** Modelled from the spec: [speak(text, onDone?)]: if already speaking,
    stop the current utterance first; then synthesize [text]. *)
Definition speak (t : jsstring) (d : option Done) (s : Synth) : Synth :=
  let s1 := stopSpeaking s in
  let u := {| text := t; onDone := d |} in
  {| isSpeaking := true; active := active s1 ++ [u];
     trace := trace s1 ++ [PlatformSpeak u] |}.

(** Modelled from the spec: on natural completion of the utterance being
    spoken, invoke [onDone] if provided, then transition to idle. *)
Definition completed (s : Synth) : Synth :=
  match active s with
  | u :: rest =>
      {| isSpeaking := false; active := rest;
         trace := trace s ++ match onDone u with
                             | Some d => [CallOnDone d]
                             | None => []
                             end |}
  | [] => s
  end.

Inductive Op :=
| DoSpeak (t : jsstring) (d : option Done)
| DoStop
| Completed.

Definition step (o : Op) (s : Synth) : Synth :=
  match o with
  | DoSpeak t d => speak t d s
  | DoStop => stopSpeaking s
  | Completed => completed s
  end.

Definition run (ops : list Op) (s : Synth) : Synth :=
  fold_left (fun s o => step o s) ops s.

(** The flag and the platform agree: nothing is active unless the flag
    is set, and no more than one utterance is. *)
Definition coherent (s : Synth) : Prop :=
  (isSpeaking s = false -> active s = []) /\ length (active s) <= 1.

End Synth.

Arguments idle {Done}.
Arguments DoStop {Done}.
Arguments Completed {Done}.
Arguments PlatformStop {Done}.

End Synthesis.

(** ** Observations on runs of the hook *)

Section Observations.

Variable Cb : Type.

(** The invocations of the registered callback recorded in a trace. *)
Definition callback_calls (l : list (Action Cb)) : list (Cb * jsstring) :=
  flat_map (fun a => match a with
                     | CallOnSpeechEnd cb text => [(cb, text)]
                     | _ => []
                     end) l.

(** The number of recognizer end events among the events of a run. *)
Definition end_events (es : list (Event Cb)) : nat :=
  length (filter (fun e => match e with OnEnd _ => true | _ => false end) es).

(** The only timer the hook keeps pending is the one [silenceTimerRef]
    names. *)
Definition one_timer (s : Sys Cb) : Prop :=
  forall t, In t (timers s) -> silenceTimerRef s = Some (timer_id t).

(** The result events of a session, each with the handlers receiving it. *)
Definition result_events (evs : list (Handlers * SpeechRecognitionEvent))
  : list (Event Cb) :=
  map (fun p => OnResult (fst p) (snd p)) evs.

End Observations.

(** ** Concrete data for the examples *)

Module Demo.

Definition merhaba : jsstring := Eval vm_compute in lit "merhaba".

(** ["test mesajı"] *)
Definition test_mesaji : jsstring :=
  Eval vm_compute in lit "test mesaj" ++ [305%N].

Definition final_result (t : jsstring) : SpeechRecognitionResult :=
  {| isFinal := true; alt0 := t |}.

Definition interim_result (t : jsstring) : SpeechRecognitionResult :=
  {| isFinal := false; alt0 := t |}.

(** The renders of the hook while idle, while listening, and while
    listening after ["merhaba"] was committed. *)
Definition idle_render : Snapshot :=
  {| isListening := false; transcript := []; finalTranscript := [];
     isSupported := true |}.

Definition listening_render : Snapshot :=
  {| isListening := true; transcript := []; finalTranscript := [];
     isSupported := true |}.

Definition heard_render : Snapshot :=
  {| isListening := true; transcript := []; finalTranscript := merhaba;
     isSupported := true |}.

(** The hook after its first effect, on a platform with recognition. *)
Definition ready {Cb : Type} : Sys Cb :=
  Eval vm_compute in fst (effect true (state (@mounted Cb)) mounted).

Definition listening_handlers : Handlers :=
  {| render := listening_render; recognition := 1%positive |}.

Definition heard_handlers : Handlers :=
  {| render := heard_render; recognition := 1%positive |}.

Definition merhaba_event : SpeechRecognitionEvent :=
  {| results := [final_result merhaba]; resultIndex := 0 |}.

(** A session in flight: callback [7] registered, ["merhaba"] committed,
    the silence timer pending. *)
Definition in_flight : Sys nat :=
  Eval vm_compute in
    run [StartListening idle_render (Some 7); OnStart;
         OnResult listening_handlers merhaba_event] ready.

(** The cells of [App] at its first render, with voice mode off or on. *)
Definition first_cells (voice : bool) : App.Cells :=
  {| App.messages := []; App.input := []; App.isLoading := false;
     App.sources := []; App.isVoiceMode := voice; App.mode := App.chat |}.

(** A render with voice mode on, taken while the hook is idle. *)
Definition voice_render : App.Render :=
  {| App.app := first_cells true; App.speech := idle_render |}.

(** The component with voice mode off and the hook ready. *)
Definition manual_world : App.World :=
  {| App.cells := first_cells false; App.recognizer := ready; App.calls := [] |}.

(** The component with voice mode on and the hook ready. *)
Definition voice_world : App.World :=
  {| App.cells := first_cells true; App.recognizer := ready; App.calls := [] |}.

Definition test_mesaji_event : SpeechRecognitionEvent :=
  {| results := [final_result test_mesaji]; resultIndex := 0 |}.

(** A backend answer ["selam"] without id and without sources. *)
Definition selam : App.ChatResponse :=
  {| App.response_id := None; App.textResponse := lit "selam";
     App.response_sources := None |}.

End Demo.

(** ** The effect and its dependencies *)

Section Lifecycle.

Variable Cb : Type.

(** The dependency array [[isListening, finalTranscript]]: React compares
    each entry with the one of the previous render. *)
Definition same_deps (prev next : Snapshot) : bool :=
  Bool.eqb (isListening prev) (isListening next)
  && (if list_eq_dec N.eq_dec (finalTranscript prev) (finalTranscript next)
      then true else false).

(** React commits a render: [prev] is the render the effect last ran for.
    When a dependency differs, the cleanup of the previous run is called
    and the body runs for the new render; otherwise nothing happens. *)
Definition commit (available : bool) (prev : Snapshot) : Cmd Cb := fun s =>
  if same_deps prev (state s) then s
  else fst (effect available (state s) (cleanup s)).

(** The calls made to recognizers, in order. *)
Definition recognizer_calls (l : list (Action Cb)) : list (Action Cb) :=
  filter (fun a => match a with
                   | RecStart _ | RecStop _ | RecAbort _ => true
                   | _ => false
                   end) l.

(** The recognizers told to stop, in order. *)
Definition stops (l : list (Action Cb)) : list RecognitionId :=
  flat_map (fun a => match a with RecStop r => [r] | _ => [] end) l.

(** The text the result events of a run commit, in order. *)
Definition committed_by (es : list (Event Cb)) : jsstring :=
  flat_map (fun e => match e with
                     | OnResult _ event => final_text event
                     | _ => []
                     end) es.

(** The events that can occur between the start and the end of a session
    without the caller resetting anything. *)
Definition in_session (e : Event Cb) : bool :=
  match e with
  | OnResult _ _ | OnError _ | Elapse _ | StopListening _ | Cleanup => true
  | OnStart | OnEnd _ | StartListening _ _ | ResetTranscript => false
  end.

Definition is_startListening (e : Event Cb) : bool :=
  match e with StartListening _ _ => true | _ => false end.

End Lifecycle.

(** ** Events under React *)

Section React.

Variable Cb : Type.

(** The handlers a commit installs on the recognizer it creates, when it
    runs the effect again: their closure is the render being committed. *)
Definition commit_handlers (available : bool) (prev : Snapshot) (s : Sys Cb)
  : option Handlers :=
  if same_deps prev (state s) then None
  else snd (effect available (state s) (cleanup s)).

(** An event of the hook followed by the commit of the render it causes.
    The render the effect last ran for has the dependencies of the state
    before the event, since every earlier event was followed by its own
    commit. *)
Definition react (e : Event Cb) : Cmd Cb := fun s =>
  commit true (state s) (step e s).

Definition react_run (es : list (Event Cb)) (s : Sys Cb) : Sys Cb :=
  fold_left (fun s e => react e s) es s.

End React.

(** The closure of the handlers the first run of the effect installs: the
    render of the mount, on recognizer 1. This is the recognizer the first
    effective [startListening] starts. *)
Definition mount_handlers : Handlers :=
  {| render := {| isListening := false; transcript := [];
                  finalTranscript := []; isSupported := false |};
     recognition := 1%positive |}.

(** A first session on the mounted hook, with the commit after each event:
    [startListening] with callback [7], the start event, and a result
    event with the final text ["merhaba"] received by the handlers of the
    recognizer that was started. *)
Definition first_session_heard : Sys nat :=
  Eval vm_compute in
    react_run [StartListening Demo.idle_render (Some 7); OnStart;
               OnResult mount_handlers Demo.merhaba_event] Demo.ready.

(** The end event of that recognizer has been handled; the render it
    causes is not committed yet. *)
Definition first_session_ended : Sys nat :=
  Eval vm_compute in step (OnEnd mount_handlers) first_session_heard.

(** ** Dictation, event by event *)

(** After each result event the state changes, [App] renders and its
    transcript effect runs. *)
Definition dictate (evs : list (Handlers * SpeechRecognitionEvent))
  : App.World -> App.World :=
  fun w => fold_left
             (fun w p => App.rerender (App.deliver_result (fst p) (snd p) w))
             evs w.

(** All the text of an event, final part first: what the event adds to the
    transcript the hook returns when the interim part was empty before. *)
Definition event_text (event : SpeechRecognitionEvent) : jsstring :=
  final_text event ++ interim_text event.

(** The text of the last event that has any, or [d]. *)
Definition last_text (evs : list (Handlers * SpeechRecognitionEvent)) (d : jsstring)
  : jsstring :=
  fold_left (fun acc p => if truthy (event_text (snd p))
                          then event_text (snd p) else acc) evs d.

(** ** The other handlers of the [App] component *)

Module Page.

(** The object literal [handleFileChange] builds. *)
Record ChatAttachment := {
  name : jsstring;
  mime : jsstring;
  contentString : jsstring
}.

(** A message as [handleSendMessage] builds it: the fields of the voice
    handlers' messages and [attachment: attachment || undefined]. *)
Record Message := {
  sent : App.ChatMessage;
  attached : option ChatAttachment
}.

(** The [useState] cells of the component. *)
Record Cells := {
  messages : list Message;
  input : jsstring;
  isLoading : bool;
  attachment : option ChatAttachment;
  mode : App.Mode;
  sources : list App.Source;
  showSources : bool;
  autoSpeak : bool;
  isVoiceMode : bool
}.

(** What one render sees: its cells, the values returned by
    [useSpeechRecognition] and [isSpeaking] of [useSpeechSynthesis]. *)
Record Render := {
  page : Cells;
  speech : Snapshot;
  isSpeaking : bool
}.

(** The same render, as the voice handlers of that render see it. *)
Definition voice (r : Render) : App.Render :=
  {| App.app := {| App.messages := map sent (messages (page r));
                   App.input := input (page r);
                   App.isLoading := isLoading (page r);
                   App.sources := sources (page r);
                   App.isVoiceMode := isVoiceMode (page r);
                   App.mode := mode (page r) |};
     App.speech := speech r |}.

(** The selected file, [e.target.files?.[0]]: its [name] and [type]. *)
Record File := {
  file_name : jsstring;
  file_type : jsstring
}.

(** What happens to [reader.readAsDataURL(file)]: the read completes and
    [onload] runs with the result, the read never completes, or the call
    throws. *)
Inductive Reading :=
| Loaded (result : jsstring)
| NeverLoaded
| ReadThrows.

(** The three [console.error] sites. *)
Inductive LogSite := SendFailed | ResetFailed | UploadFailed.

Inductive Call :=
| StopSpeaking
| Speak (text : jsstring)
| SendChatMessage (text : jsstring) (m : App.Mode) (sessionId : jsstring)
    (attachments : option (list ChatAttachment)) (reset : option bool)
| SpeakAfter (text : jsstring) (delay : N)
| LogError (site : LogSite)
| Alert (text : jsstring)
| ClearFileInput
| ReadAsDataURL (file : File).

Record State := {
  cells : Cells;
  recognizer : Sys App.Render;
  calls : list Call
}.

Definition Cmd := State -> State.

Definition seq (c1 c2 : Cmd) : Cmd := fun st => c2 (c1 st).
Definition skip : Cmd := fun st => st.
Definition when (b : bool) (c : Cmd) : Cmd := if b then c else skip.

Notation "c1 ;; c2" := (seq c1 c2) (at level 61, right associativity).

Definition modify_cells (f : Cells -> Cells) : Cmd := fun st =>
  {| cells := f (cells st); recognizer := recognizer st; calls := calls st |}.

Definition call (c : Call) : Cmd := fun st =>
  {| cells := cells st; recognizer := recognizer st; calls := calls st ++ [c] |}.

Definition on_recognizer (c : Sys App.Render -> Sys App.Render) : Cmd := fun st =>
  {| cells := cells st; recognizer := c (recognizer st); calls := calls st |}.

(** [setMessages(f)] with an updater function [f]. *)
Definition updMessages (f : list Message -> list Message) : Cmd :=
  modify_cells (fun c =>
    {| messages := f (messages c); input := input c; isLoading := isLoading c;
       attachment := attachment c; mode := mode c; sources := sources c;
       showSources := showSources c; autoSpeak := autoSpeak c;
       isVoiceMode := isVoiceMode c |}).

Definition setInput (t : jsstring) : Cmd :=
  modify_cells (fun c =>
    {| messages := messages c; input := t; isLoading := isLoading c;
       attachment := attachment c; mode := mode c; sources := sources c;
       showSources := showSources c; autoSpeak := autoSpeak c;
       isVoiceMode := isVoiceMode c |}).

Definition setIsLoading (b : bool) : Cmd :=
  modify_cells (fun c =>
    {| messages := messages c; input := input c; isLoading := b;
       attachment := attachment c; mode := mode c; sources := sources c;
       showSources := showSources c; autoSpeak := autoSpeak c;
       isVoiceMode := isVoiceMode c |}).

Definition setAttachment (a : option ChatAttachment) : Cmd :=
  modify_cells (fun c =>
    {| messages := messages c; input := input c; isLoading := isLoading c;
       attachment := a; mode := mode c; sources := sources c;
       showSources := showSources c; autoSpeak := autoSpeak c;
       isVoiceMode := isVoiceMode c |}).

Definition setSources (l : list App.Source) : Cmd :=
  modify_cells (fun c =>
    {| messages := messages c; input := input c; isLoading := isLoading c;
       attachment := attachment c; mode := mode c; sources := l;
       showSources := showSources c; autoSpeak := autoSpeak c;
       isVoiceMode := isVoiceMode c |}).

Definition setShowSources (b : bool) : Cmd :=
  modify_cells (fun c =>
    {| messages := messages c; input := input c; isLoading := isLoading c;
       attachment := attachment c; mode := mode c; sources := sources c;
       showSources := b; autoSpeak := autoSpeak c;
       isVoiceMode := isVoiceMode c |}).

Definition setIsVoiceMode (b : bool) : Cmd :=
  modify_cells (fun c =>
    {| messages := messages c; input := input c; isLoading := isLoading c;
       attachment := attachment c; mode := mode c; sources := sources c;
       showSources := showSources c; autoSpeak := autoSpeak c;
       isVoiceMode := b |}).

(** [s.startsWith(prefix)] *)
Fixpoint startsWith (s prefix : jsstring) : bool :=
  match prefix, s with
  | [], _ => true
  | p :: prefix', c :: s' => (c =? p)%N && startsWith s' prefix'
  | _ :: _, [] => false
  end.

(** ['Lütfen sadece resim dosyası yükleyin.'] *)
Definition onlyImagesAlert : jsstring :=
  lit "L" ++ [252%N] ++ lit "tfen sadece resim dosyas" ++ [305%N] ++ lit " y"
  ++ [252%N] ++ lit "kleyin.".

(** ['Dosya yüklenirken bir hata oluştu.'] *)
Definition uploadFailedAlert : jsstring :=
  lit "Dosya y" ++ [252%N] ++ lit "klenirken bir hata olu" ++ [351%N] ++ lit "tu.".

(** [handleFileChange]; [file] is [e.target.files?.[0]]. The attachment is
    set by [reader.onload], so only when the read completes. *)
Definition handleFileChange (file : option File) (reading : Reading) : Cmd :=
  match file with
  | None => skip
  | Some f =>
      if negb (startsWith (file_type f) (lit "image/"))
      then call (Alert onlyImagesAlert)
      else
        match reading with
        | Loaded contentString =>
            call (ReadAsDataURL f) ;;
            setAttachment (Some {| name := file_name f; mime := file_type f;
                                   contentString := contentString |})
        | NeverLoaded => call (ReadAsDataURL f)
        | ReadThrows =>
            call (ReadAsDataURL f) ;;
            call (LogError UploadFailed) ;;
            call (Alert uploadFailedAlert)
        end
  end.

(** [handleResetChat] of render [r]; [outcome] is how the awaited reset
    request ends. *)
Definition handleResetChat (r : Render) (outcome : App.Outcome) : Cmd :=
  if isLoading (page r) then skip
  else
    updMessages (fun _ => []) ;;
    setSources [] ;;
    setShowSources false ;;
    setIsVoiceMode false ;;
    call StopSpeaking ;;
    on_recognizer (stopListening (speech r)) ;;
    call (SendChatMessage [] (mode (page r)) App.sessionId None (Some true)) ;;
    match outcome with
    | App.Resolves _ => skip
    | App.Throws _ => call (LogError ResetFailed)
    end.

(** [handleSendMessage] of render [r]. The file input is mounted, and
    [fileInputRef.current] set, exactly when the input area is rendered,
    that is when the render has voice mode off. [now], [outcome] and
    [later] are as for [handleVoiceConversation]. *)
Definition handleSendMessage
    (r : Render) (now : N) (outcome : App.Outcome) (later : N) : Cmd :=
  if negb (truthy (trim (input (page r))))
     && match attachment (page r) with Some _ => false | None => true end
  then skip
  else
    updMessages (fun prev => prev ++
      [{| sent := {| App.id := App.IdOfClock now; App.type := App.user;
                     App.message := input (page r); App.timestamp := now |};
          attached := attachment (page r) |}]) ;;
    setInput [] ;;
    setAttachment None ;;
    when (negb (isVoiceMode (page r))) (call ClearFileInput) ;;
    setIsLoading true ;;
    call StopSpeaking ;;
    call (SendChatMessage (input (page r)) (mode (page r)) App.sessionId
            match attachment (page r) with
            | Some a => Some [a]
            | None => None
            end
            None) ;;
    match outcome with
    | App.Resolves data =>
        updMessages (fun prev => prev ++
          [{| sent := {| App.id := App.botMessageId data later;
                         App.type := App.bot;
                         App.message := App.textResponse data;
                         App.timestamp := later |};
              attached := None |}]) ;;
        match App.response_sources data with
        | Some (src :: l) => setSources (src :: l)
        | _ => setSources []
        end ;;
        when (autoSpeak (page r) && truthy (App.textResponse data))
          (call (SpeakAfter (App.textResponse data) 500))
    | App.Throws error =>
        let errorMessage :=
          match error with
          | App.ChatApiError m => m
          | App.OtherError => App.defaultErrorMessage
          end in
        call (LogError SendFailed) ;;
        updMessages (fun prev => prev ++
          [{| sent := {| App.id := App.IdOfClock later; App.type := App.bot;
                         App.message := errorMessage; App.timestamp := later |};
              attached := None |}])
    end ;;
    setIsLoading false.

(** [handleVoiceToggle] of render [r]. The callback it registers is
    [handleVoiceConversation] of the same render. *)
Definition handleVoiceToggle (r : Render) : Cmd :=
  if isVoiceMode (page r)
  then
    setIsVoiceMode false ;;
    on_recognizer (stopListening (speech r)) ;;
    call StopSpeaking
  else
    setIsVoiceMode true ;;
    on_recognizer (startListening (speech r) (Some (voice r))).

(** [handleSpeakMessage] of render [r]. *)
Definition handleSpeakMessage (r : Render) (message : jsstring) : Cmd :=
  if isSpeaking r then call StopSpeaking else call (Speak message).

(** The [onClick] of the manual voice recognition button, for render [r]. *)
Definition micButton (r : Render) : Cmd :=
  if isListening (speech r)
  then on_recognizer (stopListening (speech r))
  else on_recognizer (startListening (speech r) None).

(** The backend requests recorded in a list of calls. *)
Definition requests (l : list Call)
  : list (jsstring * option (list ChatAttachment) * option bool) :=
  flat_map (fun c => match c with
                     | SendChatMessage t _ _ a reset => [(t, a, reset)]
                     | _ => []
                     end) l.

(** The speech scheduled or started in a list of calls. *)
Definition speech_calls (l : list Call) : list Call :=
  filter (fun c => match c with Speak _ | SpeakAfter _ _ => true | _ => false end) l.

(** The guard of [handleSendMessage] lets the call through: there is
    text other than whitespace, or an attachment. *)
Definition sendable (r : Render) : Prop :=
  trim (input (page r)) <> [] \/ attachment (page r) <> None.

(** The user message and the bot message a send appends. *)
Definition userMessage (r : Render) (now : N) : Message :=
  {| sent := {| App.id := App.IdOfClock now; App.type := App.user;
                App.message := input (page r); App.timestamp := now |};
     attached := attachment (page r) |}.

Definition botMessage (outcome : App.Outcome) (later : N) : Message :=
  {| sent :=
       match outcome with
       | App.Resolves data =>
           {| App.id := App.botMessageId data later; App.type := App.bot;
              App.message := App.textResponse data; App.timestamp := later |}
       | App.Throws (App.ChatApiError m) =>
           {| App.id := App.IdOfClock later; App.type := App.bot;
              App.message := m; App.timestamp := later |}
       | App.Throws App.OtherError =>
           {| App.id := App.IdOfClock later; App.type := App.bot;
              App.message := App.defaultErrorMessage; App.timestamp := later |}
       end;
     attached := None |}.

End Page.

(** ** The turn handlers the page registers *)

(** [startListening(handleVoiceConversation)] occurs at three places.
    [handleVoiceToggle] registers the handler of its own render, on the
    branch where that render has voice mode off. The two others are in
    [handleVoiceConversation] itself, after an answer was spoken and after
    a failure: there a handler registers itself again, behind the
    [isVoiceMode] of its own render. *)
Inductive registered : App.Render -> Prop :=
| by_toggle (r : Page.Render) :
    Page.isVoiceMode (Page.page r) = false -> registered (Page.voice r)
| by_turn (v : App.Render) :
    registered v -> App.isVoiceMode (App.app v) = true -> registered v.

(** A render of the whole page with voice mode off, while the hook is idle,
    and the page in that state. *)
Definition page_cells (text : jsstring) (a : option Page.ChatAttachment)
  : Page.Cells :=
  {| Page.messages := []; Page.input := text; Page.isLoading := false;
     Page.attachment := a; Page.mode := App.chat; Page.sources := [];
     Page.showSources := false; Page.autoSpeak := true;
     Page.isVoiceMode := false |}.

Definition page_render (text : jsstring) (a : option Page.ChatAttachment)
  : Page.Render :=
  {| Page.page := page_cells text a; Page.speech := Demo.idle_render;
     Page.isSpeaking := false |}.

Definition page_state (text : jsstring) (a : option Page.ChatAttachment)
  : Page.State :=
  {| Page.cells := page_cells text a; Page.recognizer := Demo.ready;
     Page.calls := [] |}.

(** The texts sent to the backend by the voice handlers, in order. *)
Definition voice_requests (l : list App.Call) : list (jsstring * App.Mode) :=
  flat_map (fun c => match c with
                     | App.SendChatMessage t m _ => [(t, m)]
                     | _ => []
                     end) l.

(** * Properties *)

(** ** JavaScript strings *)

Lemma trim_start_blank (s : jsstring) :
  trim_start s = [] <-> forallb is_space s = true.
Proof.
  induction s as [|c s IH]; simpl; [tauto|].
  destruct (is_space c); simpl; [exact IH|]. split; discriminate.
Qed.

(** [s.trim()] is the empty string exactly for the empty and the
    whitespace-only strings. *)
Lemma trim_blank (s : jsstring) :
  trim s = [] <-> forallb is_space s = true.
Proof.
  unfold trim. rewrite <- trim_start_blank. split; intros H.
  - destruct (trim_start s) as [|c t] eqn:E; [reflexivity|].
    exfalso. apply (f_equal (@rev N)) in H. rewrite rev_involutive in H.
    simpl in H.
    assert (Hl : trim_start (rev (c :: t)) <> []).
    { assert (Hc : is_space c = false).
      { clear H. induction s as [|d s IH]; simpl in E; [discriminate|].
        destruct (is_space d) eqn:Ed; [auto|]. congruence. }
      simpl. generalize (rev t). intros l.
      induction l as [|d l IH]; simpl.
      - rewrite Hc. discriminate.
      - destruct (is_space d); [exact IH | discriminate]. }
    contradiction.
  - rewrite H. reflexivity.
Qed.


(** ** Transcript accumulation *)

Lemma scan_fold (l : list SpeechRecognitionResult) (i f : jsstring) :
  fold_left scan_step l (i, f) =
  (i ++ concat (map alt0 (filter (fun r => negb (isFinal r)) l)),
   f ++ concat (map alt0 (filter isFinal l))).
Proof.
  revert i f. induction l as [|r l IH]; intros i f; simpl.
  - now rewrite !app_nil_r.
  - destruct (isFinal r); simpl; rewrite IH, <- app_assoc; reflexivity.
Qed.

Lemma scan_results_spec (event : SpeechRecognitionEvent) :
  scan_results event = (interim_text event, final_text event).
Proof. unfold scan_results. now rewrite scan_fold. Qed.

Lemma last_cons (A : Type) (x d : A) (l : list A) : last (x :: l) d = last l x.
Proof.
  revert x d. induction l as [|y l IH]; intros x d; [reflexivity|].
  change (last (x :: y :: l) d) with (last (y :: l) d). now rewrite !IH.
Qed.

Section HookFacts.

Variable Cb : Type.
Implicit Types (s : Sys Cb) (h : Handlers) (r : Snapshot).

(** The silence timer bookkeeping never touches the React state. *)
Lemma clearSilenceTimer_state s : state (clearSilenceTimer s) = state s.
Proof. unfold clearSilenceTimer. now destruct (silenceTimerRef s). Qed.

Lemma onresult_state h event s :
  state (onresult h event s) =
  {| isListening := isListening (state s);
     transcript := interim_text event;
     finalTranscript := finalTranscript (state s) ++ final_text event;
     isSupported := isSupported (state s) |}.
Proof.
  unfold onresult. rewrite scan_results_spec. unfold seq. simpl.
  rewrite clearSilenceTimer_state.
  destruct (final_text event) eqn:E; simpl; [now rewrite app_nil_r | reflexivity].
Qed.

Lemma run_results_state evs s :
  finalTranscript (state (run (result_events Cb evs) s)) =
    finalTranscript (state s) ++ concat (map (fun p => final_text (snd p)) evs)
  /\ transcript (state (run (result_events Cb evs) s)) =
    last (map (fun p => interim_text (snd p)) evs) (transcript (state s)).
Proof.
  revert s. induction evs as [|[h e] evs IH]; intros s.
  - simpl. now rewrite app_nil_r.
  - change (run (result_events Cb ((h, e) :: evs)) s)
      with (run (result_events Cb evs) (onresult h e s)).
    destruct (IH (onresult h e s)) as [IHf IHt].
    rewrite IHf, IHt, onresult_state. split.
    + simpl. now rewrite app_assoc.
    + cbn [map snd transcript]. now rewrite last_cons.
Qed.

End HookFacts.

(** C1. Within one listening session (the recognizer's start event, then
    any sequence of result events, whichever handlers receive them), the
    committed transcript is the concatenation, in arrival order, of the
    segments the events marked final; the interim transcript is the
    non-final portion of the most recent event only; and the [transcript]
    field the hook returns is the committed text followed by the interim
    text. *)
Theorem C1_transcript_accumulation
  (Cb : Type) (evs : list (Handlers * SpeechRecognitionEvent)) (s : Sys Cb) :
  let s' := run (OnStart :: result_events Cb evs) s in
  finalTranscript (state s') = concat (map (fun p => final_text (snd p)) evs)
  /\ transcript (state s') = last (map (fun p => interim_text (snd p)) evs) []
  /\ exposedTranscript (state s') = finalTranscript (state s') ++ transcript (state s').
Proof.
  intros s'. subst s'.
  change (run (OnStart :: result_events Cb evs) s)
    with (run (result_events Cb evs) (onstart s)).
  destruct (run_results_state evs (onstart s)) as [Hf Ht].
  unfold exposedTranscript. rewrite Hf, Ht. simpl. auto.
Qed.

(** A dictation in three result events: two interim guesses, then the
    finalized segment together with the start of the next one. *)
Example dictation_progress :
  let interim t := {| results := [Demo.interim_result t]; resultIndex := 0 |} in
  let last_event :=
    {| results := [Demo.final_result Demo.merhaba; Demo.interim_result (lit " d")];
       resultIndex := 0 |} in
  let s := run [OnStart;
                OnResult Demo.listening_handlers (interim (lit "mer"));
                OnResult Demo.listening_handlers (interim (lit "merha"));
                OnResult Demo.listening_handlers last_event]
               (@Demo.ready nat) in
  finalTranscript (state s) = Demo.merhaba
  /\ transcript (state s) = lit " d"
  /\ exposedTranscript (state s) = lit "merhaba d".
Proof. vm_compute. auto. Qed.

(** ** The registered callback and the silence timer *)

Section HookTraces.

Variable Cb : Type.
Implicit Types (s : Sys Cb) (h : Handlers) (r : Snapshot) (e : Event Cb).

Lemma callback_calls_app (a b : list (Action Cb)) :
  callback_calls (a ++ b) = callback_calls a ++ callback_calls b.
Proof. apply flat_map_app. Qed.

Lemma clearSilenceTimer_trace s :
  trace (clearSilenceTimer s) =
  trace s ++ match silenceTimerRef s with
             | Some t => [ClearTimeout t]
             | None => []
             end.
Proof.
  unfold clearSilenceTimer. destruct (silenceTimerRef s); simpl; [reflexivity|].
  now rewrite app_nil_r.
Qed.

Lemma clearSilenceTimer_calls s :
  callback_calls (trace (clearSilenceTimer s)) = callback_calls (trace s).
Proof.
  rewrite clearSilenceTimer_trace, callback_calls_app.
  destruct (silenceTimerRef s); simpl; now rewrite app_nil_r.
Qed.

Lemma clearSilenceTimer_callback s :
  onSpeechEndRef (clearSilenceTimer s) = onSpeechEndRef s.
Proof. unfold clearSilenceTimer. now destruct (silenceTimerRef s). Qed.

Lemma clearSilenceTimer_recognition s :
  recognitionRef (clearSilenceTimer s) = recognitionRef s.
Proof. unfold clearSilenceTimer. now destruct (silenceTimerRef s). Qed.

Lemma clearSilenceTimer_clock s : clock (clearSilenceTimer s) = clock s.
Proof. unfold clearSilenceTimer. now destruct (silenceTimerRef s). Qed.

Lemma clearSilenceTimer_nextTimer s :
  nextTimer (clearSilenceTimer s) = nextTimer s.
Proof. unfold clearSilenceTimer. now destruct (silenceTimerRef s). Qed.

(** With one timer at most, clearing the referenced timer leaves none. *)
Lemma clearSilenceTimer_timers s :
  one_timer s -> timers (clearSilenceTimer s) = [].
Proof.
  intros W. unfold clearSilenceTimer.
  destruct (silenceTimerRef s) as [t|] eqn:E; simpl.
  - assert (H : forall l, (forall x, In x l -> Some t = Some (timer_id x)) ->
                filter (fun x => negb (timer_id x =? t)%positive) l = []).
    { induction l as [|x l IH]; intros Hl; [reflexivity|]. simpl.
      assert (Hx : Some t = Some (timer_id x)) by (apply Hl; now left).
      injection Hx as ->. rewrite Pos.eqb_refl. simpl.
      apply IH. intros y Hy. apply Hl. now right. }
    apply H. intros x Hx. rewrite <- E. now apply W.
  - destruct (timers s) as [|x l] eqn:T; [reflexivity|].
    assert (H : silenceTimerRef s = Some (timer_id x)).
    { apply W. rewrite T. now left. }
    congruence.
Qed.

Lemma silenceCallback_calls h s :
  callback_calls (trace (silenceCallback h s)) = callback_calls (trace s).
Proof.
  unfold silenceCallback, when, skip.
  destruct (recognitionRef s), (isListening (render h)); simpl; try reflexivity.
  rewrite callback_calls_app. simpl. now rewrite app_nil_r.
Qed.

Lemma silenceCallback_callback h s :
  onSpeechEndRef (silenceCallback h s) = onSpeechEndRef s.
Proof.
  unfold silenceCallback, when, skip.
  now destruct (recognitionRef s), (isListening (render h)).
Qed.

Lemma run_timers_calls fuel target s :
  callback_calls (trace (run_timers fuel target s)) = callback_calls (trace s)
  /\ onSpeechEndRef (run_timers fuel target s) = onSpeechEndRef s.
Proof.
  revert s. induction fuel as [|fuel IH]; intros s; simpl; [auto|].
  destruct (earliest target (timers s)) as [t|]; [|auto].
  destruct (IH (fire t (set_clock (N.max (clock s) (due t)) s))) as [-> ->].
  unfold fire, seq. now rewrite silenceCallback_calls, silenceCallback_callback.
Qed.

(** What the end handler does with the registered callback. *)
Lemma onend_calls h s :
  trace (onend h s) =
  trace s ++ match truthy (finalTranscript (render h)), onSpeechEndRef s with
             | true, Some cb => [CallOnSpeechEnd cb (finalTranscript (render h))]
             | _, _ => []
             end.
Proof.
  unfold onend, seq. simpl.
  destruct (truthy (finalTranscript (render h))), (onSpeechEndRef s);
    simpl; now rewrite ?app_nil_r.
Qed.

Lemma onend_callback h s : onSpeechEndRef (onend h s) = onSpeechEndRef s.
Proof.
  unfold onend, seq. simpl.
  destruct (truthy (finalTranscript (render h))), (onSpeechEndRef s) eqn:E;
    simpl; congruence.
Qed.

Lemma stopListening_callback r s :
  onSpeechEndRef (stopListening r s) = onSpeechEndRef s.
Proof.
  unfold stopListening, seq. rewrite clearSilenceTimer_callback.
  unfold when, skip. now destruct (recognitionRef s), (isListening r).
Qed.

Lemma onresult_trace h event s :
  trace (onresult h event s) =
  trace s ++ match silenceTimerRef s with
             | Some t => [ClearTimeout t]
             | None => []
             end ++ [SetTimeout (nextTimer s) 2000].
Proof.
  unfold onresult. destruct (scan_results event) as [i f].
  unfold seq, armSilenceTimer. cbn [trace].
  rewrite clearSilenceTimer_trace, clearSilenceTimer_nextTimer, <- app_assoc.
  unfold when, skip. destruct (truthy f); reflexivity.
Qed.

Lemma onresult_callback h event s :
  onSpeechEndRef (onresult h event s) = onSpeechEndRef s.
Proof.
  unfold onresult. destruct (scan_results event) as [i f].
  unfold seq, armSilenceTimer. cbn [onSpeechEndRef].
  rewrite clearSilenceTimer_callback.
  unfold when, skip. destruct (truthy f); reflexivity.
Qed.

(** Only the end handler invokes the callback, and at most once. *)
Lemma step_calls e s :
  exists delta,
    callback_calls (trace (step e s)) = callback_calls (trace s) ++ delta
    /\ length delta <= match e with OnEnd _ => 1 | _ => 0 end.
Proof.
  destruct e as [|h|h event|error|d|r cb|r| |]; simpl.
  - exists []. rewrite app_nil_r. auto.
  - rewrite onend_calls, callback_calls_app.
    eexists; split; [reflexivity|].
    destruct (truthy (finalTranscript (render h))), (onSpeechEndRef s); simpl; lia.
  - exists []. rewrite onresult_trace, !callback_calls_app, app_nil_r.
    split; [|auto]. destruct (silenceTimerRef s); simpl; now rewrite app_nil_r.
  - exists []. unfold onerror, seq. rewrite clearSilenceTimer_calls. simpl.
    rewrite callback_calls_app. auto.
  - exists []. unfold elapse. simpl.
    destruct (run_timers_calls (length (timers s)) (clock s + d) s) as [-> _].
    rewrite app_nil_r. auto.
  - exists []. rewrite app_nil_r. split; [|auto].
    unfold startListening, when, skip.
    destruct (recognitionRef s), (isListening r); simpl; try reflexivity.
    rewrite callback_calls_app. simpl. now rewrite app_nil_r.
  - exists []. rewrite app_nil_r. split; [|auto].
    unfold stopListening, seq. rewrite clearSilenceTimer_calls.
    unfold when, skip. destruct (recognitionRef s), (isListening r); simpl;
      try reflexivity.
    rewrite callback_calls_app. simpl. now rewrite app_nil_r.
  - exists []. rewrite app_nil_r. auto.
  - exists []. rewrite app_nil_r. split; [|auto].
    unfold cleanup, seq. rewrite clearSilenceTimer_calls.
    destruct (recognitionRef s); simpl; [|reflexivity].
    rewrite callback_calls_app. simpl. now rewrite app_nil_r.
Qed.

Lemma run_calls es s :
  length (callback_calls (trace (run es s)))
  <= length (callback_calls (trace s)) + end_events es.
Proof.
  revert s. induction es as [|e es IH]; intros s; [simpl; lia|].
  change (run (e :: es) s) with (run es (step e s)).
  specialize (IH (step e s)).
  destruct (step_calls e s) as [delta [Hd Hl]].
  rewrite Hd, length_app in IH.
  unfold end_events in *. simpl. destruct e; simpl in *; lia.
Qed.

(** The stored callback changes only in [startListening]. *)
Lemma step_callback e s :
  (forall r cb, e <> StartListening r cb) ->
  onSpeechEndRef (step e s) = onSpeechEndRef s.
Proof.
  intros Hne.
  destruct e as [|h|h event|error|d|r cb|r| |]; simpl.
  - reflexivity.
  - apply onend_callback.
  - apply onresult_callback.
  - unfold onerror, seq. now rewrite clearSilenceTimer_callback.
  - unfold elapse. simpl.
    now destruct (run_timers_calls (length (timers s)) (clock s + d) s) as [_ ->].
  - now destruct (Hne r cb).
  - apply stopListening_callback.
  - reflexivity.
  - unfold cleanup, seq. rewrite clearSilenceTimer_callback.
    now destruct (recognitionRef s).
Qed.

End HookTraces.

(** C4. [startListening] of a render that is listening changes nothing:
    the state, both transcripts, the stored callback, the timers and the
    trace of platform calls are all as before. *)
Theorem C4_startListening_while_listening
  (Cb : Type) (r : Snapshot) (onSpeechEnd : option Cb) (s : Sys Cb) :
  isListening r = true ->
  startListening r onSpeechEnd s = s.
Proof.
  intros Hl. unfold startListening. rewrite Hl.
  now destruct (recognitionRef s).
Qed.

Lemma C4_startListening_while_listening_witness :
  isListening Demo.heard_render = true
  /\ startListening Demo.heard_render (Some 9) Demo.in_flight = Demo.in_flight.
Proof.
  split; [reflexivity|].
  apply C4_startListening_while_listening. reflexivity.
Defined.

(** ** The silence timer *)

Section SilenceTimer.

Variable Cb : Type.
Implicit Types (s : Sys Cb) (h : Handlers).

(** After a result event the only pending timer is the new one. *)
Lemma onresult_timers h event s :
  one_timer s ->
  timers (onresult h event s)
  = [{| timer_id := nextTimer s; due := clock s + 2000; timer_env := h |}]
  /\ silenceTimerRef (onresult h event s) = Some (nextTimer s)
  /\ clock (onresult h event s) = clock s
  /\ recognitionRef (onresult h event s) = recognitionRef s.
Proof.
  intros W. unfold onresult. destruct (scan_results event) as [i f].
  unfold seq, armSilenceTimer.
  cbn [timers silenceTimerRef clock recognitionRef].
  rewrite clearSilenceTimer_nextTimer, clearSilenceTimer_clock,
    clearSilenceTimer_recognition, clearSilenceTimer_timers.
  - unfold when, skip. destruct (truthy f); auto.
  - unfold when, skip. destruct (truthy f); exact W.
Qed.

(** A state whose only pending timer is [t]: what the passing of [d]
    milliseconds does to the trace. *)
Lemma elapse_single (t : Timer) d s :
  timers s = [t] ->
  trace (elapse d s)
  = if (due t <=? clock s + d)%N
    then trace (silenceCallback (timer_env t) s)
    else trace s.
Proof.
  intros Ht. unfold elapse. rewrite Ht. cbn [length run_timers trace set_clock].
  rewrite Ht. cbn [earliest].
  destruct (due t <=? clock s + d)%N; [|reflexivity].
  cbn [run_timers]. unfold fire, seq.
  unfold silenceCallback, when, skip. cbn [recognitionRef set_timers set_clock].
  destruct (recognitionRef s), (isListening (render (timer_env t))); reflexivity.
Qed.

Lemma elapse_none d s : timers s = [] -> trace (elapse d s) = trace s.
Proof. intros Ht. unfold elapse. rewrite Ht. reflexivity. Qed.

Lemma cleanup_trace s :
  trace (cleanup s)
  = trace s
    ++ match recognitionRef s with Some r => [RecAbort r] | None => [] end
    ++ match silenceTimerRef s with Some t => [ClearTimeout t] | None => [] end.
Proof.
  unfold cleanup, seq. rewrite clearSilenceTimer_trace.
  destruct (recognitionRef s); simpl; [now rewrite <- app_assoc | reflexivity].
Qed.

Lemma cleanup_timers s : one_timer s -> timers (cleanup s) = [].
Proof.
  intros W. unfold cleanup, seq. apply clearSilenceTimer_timers.
  destruct (recognitionRef s); exact W.
Qed.

Lemma cleanup_callback s : onSpeechEndRef (cleanup s) = onSpeechEndRef s.
Proof.
  unfold cleanup, seq. rewrite clearSilenceTimer_callback.
  now destruct (recognitionRef s).
Qed.

(** Every state the hook reaches from its mounted state keeps at most the
    referenced timer pending. *)
Lemma one_timer_mounted : one_timer (@mounted Cb).
Proof. intros t []. Qed.

End SilenceTimer.

Section OneTimer.

Variable Cb : Type.
Implicit Types (s : Sys Cb) (h : Handlers).

Lemma one_timer_sub s s' :
  (forall t, In t (timers s') -> In t (timers s)) ->
  silenceTimerRef s' = silenceTimerRef s ->
  one_timer s -> one_timer s'.
Proof. intros Hsub Href W t Ht. rewrite Href. apply W, Hsub, Ht. Qed.

Lemma one_timer_nil s : timers s = [] -> one_timer s.
Proof. intros E t Ht. rewrite E in Ht. destruct Ht. Qed.

Lemma run_timers_one_timer fuel target s :
  one_timer s -> one_timer (run_timers fuel target s).
Proof.
  revert s. induction fuel as [|fuel IH]; intros s W; simpl; [exact W|].
  destruct (earliest target (timers s)) as [t|]; [|exact W].
  apply IH. unfold fire, seq.
  apply one_timer_sub with (s := s); [| |exact W].
  - intros x. unfold silenceCallback, when, skip. simpl.
    destruct (recognitionRef s), (isListening (render (timer_env t))); simpl;
      intros Hx; apply filter_In in Hx; tauto.
  - unfold silenceCallback, when, skip. simpl.
    now destruct (recognitionRef s), (isListening (render (timer_env t))).
Qed.

(** The invariant behind the silence timer: every handler and every
    function of the hook keeps at most the referenced timer pending. *)
Lemma one_timer_step (e : Event Cb) s : one_timer s -> one_timer (step e s).
Proof.
  intros W. destruct e as [|h|h event|error|d|r cb|r| |]; simpl.
  - exact W.
  - apply one_timer_sub with (s := s); [| |exact W].
    + unfold onend, seq. simpl.
      destruct (truthy (finalTranscript (render h))), (onSpeechEndRef s); auto.
    + unfold onend, seq. simpl.
      now destruct (truthy (finalTranscript (render h))), (onSpeechEndRef s).
  - destruct (onresult_timers h event W) as (Ht & Hr & _).
    intros t Hin. rewrite Ht in Hin. destruct Hin as [<-|[]]. exact Hr.
  - apply one_timer_nil. unfold onerror, seq.
    apply clearSilenceTimer_timers. exact W.
  - unfold elapse.
    apply one_timer_sub
      with (s := run_timers (length (timers s)) (clock s + d) s); auto.
    now apply run_timers_one_timer.
  - apply one_timer_sub with (s := s); [| |exact W];
      unfold startListening, when, skip;
      destruct (recognitionRef s), (isListening r); auto.
  - apply one_timer_nil. unfold stopListening, seq.
    apply clearSilenceTimer_timers.
    unfold when, skip. destruct (recognitionRef s), (isListening r); exact W.
  - exact W.
  - apply one_timer_nil. now apply cleanup_timers.
Qed.

Lemma one_timer_run (es : list (Event Cb)) s : one_timer s -> one_timer (run es s).
Proof.
  revert s. induction es as [|e es IH]; intros s W; [exact W|].
  apply (IH (step e s)). now apply one_timer_step.
Qed.

Lemma one_timer_effect available (r : Snapshot) s :
  one_timer s -> one_timer (fst (effect available r s)).
Proof. intros W. unfold effect. destruct available; exact W. Qed.

(** Every state reached from the mounted hook satisfies the invariant. *)
Lemma one_timer_reachable available (r : Snapshot) (es : list (Event Cb)) :
  one_timer (run es (fst (effect available r mounted))).
Proof. apply one_timer_run, one_timer_effect, one_timer_mounted. Qed.

End OneTimer.

(** ** The hands-free turn and manual dictation *)

Section Turns.

Import App.

Lemma spoken_app (a b : list Call) : spoken (a ++ b) = spoken a ++ spoken b.
Proof. apply flat_map_app. Qed.

Lemma timers_set_app (a b : list Call) :
  timers_set (a ++ b) = timers_set a ++ timers_set b.
Proof. apply flat_map_app. Qed.

Lemma input_writes_app (a b : list Call) :
  input_writes (a ++ b) = input_writes a ++ input_writes b.
Proof. apply flat_map_app. Qed.

Lemma truthy_true (s : jsstring) : s <> [] -> truthy s = true.
Proof. destruct s; [contradiction | reflexivity]. Qed.

(** The calls of a turn whose backend call throws. *)
Lemma failed_turn_calls r text now error later w :
  trim text <> [] ->
  calls (handleVoiceConversation r text now (Throws error) later w)
  = calls w
    ++ [StopSpeaking; SendChatMessage text (mode (app r)) sessionId; LogError error]
    ++ (if isVoiceMode (app r) then [SetTimer (Relisten r) 2000] else []).
Proof.
  intros Ht. unfold handleVoiceConversation. rewrite (truthy_true Ht).
  unfold seq, when, skip. simpl.
  destruct (isVoiceMode (app r)); simpl; rewrite <- ?app_assoc; reflexivity.
Qed.

(** The calls of a turn whose backend call returns. *)
Lemma answered_turn_calls r text now data later w :
  trim text <> [] ->
  calls (handleVoiceConversation r text now (Resolves data) later w)
  = calls w
    ++ [StopSpeaking; SendChatMessage text (mode (app r)) sessionId]
    ++ (if truthy (textResponse data)
        then [Speak (textResponse data) (Some (AfterSpeech r))] else []).
Proof.
  intros Ht. unfold handleVoiceConversation. rewrite (truthy_true Ht).
  unfold seq, when, skip. simpl.
  destruct (response_sources data) as [[|src l]|], (truthy (textResponse data));
    simpl; rewrite <- ?app_assoc; reflexivity.
Qed.

(** C10. Called with a text that is empty or made of whitespace only,
    [handleVoiceConversation] returns at once: no message is appended,
    the backend is not called, nothing is spoken, the loading flag is not
    touched and no timer is set; the component is exactly as before. *)
Theorem C10_blank_text_is_ignored
  (r : Render) (text : jsstring) (now : N) (outcome : Outcome) (later : N)
  (w : World) :
  forallb is_space text = true ->
  handleVoiceConversation r text now outcome later w = w.
Proof.
  intros Hb. unfold handleVoiceConversation.
  apply trim_blank in Hb. rewrite Hb. reflexivity.
Qed.

Lemma C10_blank_text_is_ignored_witness :
  forallb is_space (lit "  " ++ [9%N; 160%N]) = true
  /\ handleVoiceConversation Demo.voice_render (lit "  " ++ [9%N; 160%N]) 0
       (Resolves Demo.selam) 1 Demo.voice_world
     = Demo.voice_world.
Proof.
  split; [reflexivity|].
  apply C10_blank_text_is_ignored. reflexivity.
Defined.

(** A render the effect acts on: what it writes and what it resets. *)
Lemma rerender_consumes w :
  isVoiceMode (cells w) = false ->
  exposedTranscript (state (recognizer w)) <> [] ->
  input (cells (rerender w)) = exposedTranscript (state (recognizer w))
  /\ calls (rerender w)
     = calls w ++ [SetInput (exposedTranscript (state (recognizer w)))]
  /\ finalTranscript (state (recognizer (rerender w))) = []
  /\ transcript (state (recognizer (rerender w))) = [].
Proof.
  intros Hv Ht. unfold rerender, transcriptEffect. cbn [render_of app speech].
  rewrite Hv, (truthy_true Ht). simpl. auto.
Qed.

(** With nothing to consume the effect does nothing. *)
Lemma rerender_idle w :
  exposedTranscript (state (recognizer w)) = [] -> rerender w = w.
Proof.
  intros Ht. unfold rerender, transcriptEffect. cbn [render_of app speech].
  rewrite Ht. reflexivity.
Qed.

(** C7. With voice mode off, a result event that carries a finalized
    segment makes the transcript returned by the hook non-empty; the
    effect then writes that transcript, which contains the segment, into
    the input field with a single [setInput] and resets both parts of the
    hook's transcript. The render that follows finds the transcript empty
    and changes nothing, so the text is not applied a second time. *)
Theorem C7_manual_dictation_consumed_once
  (h : Handlers) (event : SpeechRecognitionEvent) (w : World) :
  isVoiceMode (cells w) = false ->
  final_text event <> [] ->
  let heard := deliver_result h event w in
  let text := finalTranscript (state (recognizer w))
              ++ final_text event ++ interim_text event in
  let consumed := rerender heard in
  exposedTranscript (state (recognizer heard)) = text
  /\ input (cells consumed) = text
  /\ input_writes (calls consumed) = input_writes (calls w) ++ [text]
  /\ finalTranscript (state (recognizer consumed)) = []
  /\ transcript (state (recognizer consumed)) = []
  /\ exposedTranscript (state (recognizer consumed)) = []
  /\ rerender consumed = consumed.
Proof.
  intros Hv Hf heard text consumed.
  assert (Hx : exposedTranscript (state (recognizer heard)) = text).
  { subst heard text. unfold deliver_result, on_recognizer, exposedTranscript.
    cbn [recognizer]. rewrite onresult_state. cbn [finalTranscript transcript].
    now rewrite app_assoc. }
  assert (Hne : exposedTranscript (state (recognizer heard)) <> []).
  { rewrite Hx. subst text. intros E.
    apply app_eq_nil in E as [_ E]. apply app_eq_nil in E as [E _].
    contradiction. }
  destruct (@rerender_consumes heard Hv Hne) as (Hi & Hc & Hft & Htr).
  fold consumed in Hi, Hc, Hft, Htr.
  assert (He : exposedTranscript (state (recognizer consumed)) = []).
  { unfold exposedTranscript. now rewrite Hft, Htr. }
  repeat apply conj; auto.
  - now rewrite Hi.
  - rewrite Hc, input_writes_app, Hx. reflexivity.
  - now apply rerender_idle.
Qed.

Lemma C7_manual_dictation_consumed_once_witness :
  let consumed := rerender (deliver_result Demo.listening_handlers
                              Demo.test_mesaji_event Demo.manual_world) in
  isVoiceMode (cells Demo.manual_world) = false
  /\ final_text Demo.test_mesaji_event <> []
  /\ input (cells consumed) = Demo.test_mesaji
  /\ input_writes (calls consumed) = [Demo.test_mesaji]
  /\ exposedTranscript (state (recognizer consumed)) = []
  /\ rerender consumed = consumed.
Proof.
  assert (Hv : isVoiceMode (cells Demo.manual_world) = false) by reflexivity.
  assert (Hf : final_text Demo.test_mesaji_event <> []) by discriminate.
  destruct (@C7_manual_dictation_consumed_once Demo.listening_handlers
              Demo.test_mesaji_event Demo.manual_world Hv Hf)
    as (_ & Hi & Hw & _ & _ & He & Hs).
  repeat apply conj.
  - exact Hv.
  - exact Hf.
  - rewrite Hi. reflexivity.
  - rewrite Hw. reflexivity.
  - exact He.
  - exact Hs.
Defined.

End Turns.

(** ** Speech synthesis *)

Section OneUtterance.

Variable Done : Type.
Import Synthesis.

Lemma coherent_idle : coherent (@idle Done).
Proof. split; [reflexivity | simpl; lia]. Qed.

Lemma stopSpeaking_active (s : Synth Done) :
  coherent s -> active (stopSpeaking s) = [].
Proof.
  intros [Hidle _]. unfold stopSpeaking.
  destruct (isSpeaking s); [reflexivity | now apply Hidle].
Qed.

Lemma coherent_step (o : Op Done) (s : Synth Done) :
  coherent s -> coherent (step o s).
Proof.
  intros C. destruct o as [t d| |]; simpl.
  - unfold speak. split; cbn [isSpeaking active]; [discriminate|].
    rewrite stopSpeaking_active by exact C. simpl. lia.
  - unfold stopSpeaking. destruct (isSpeaking s) eqn:E; [|exact C].
    split; [reflexivity | simpl; lia].
  - unfold completed. destruct C as [Hidle Hlen].
    destruct (active s) as [|u rest] eqn:E; [rewrite <- E in Hlen; now split|].
    simpl in Hlen. destruct rest; [|simpl in Hlen; lia].
    split; [reflexivity | simpl; lia].
Qed.

Lemma coherent_run (ops : list (Op Done)) (s : Synth Done) :
  coherent s -> coherent (run ops s).
Proof.
  revert s. induction ops as [|o ops IH]; intros s C; [exact C|].
  apply (IH (step o s)). now apply coherent_step.
Qed.

End OneUtterance.

(** C9. In every state the synthesis coordinator reaches from idle, by any
    sequence of [speak], [stopSpeaking] and completions, at most one
    utterance is active. A [speak] issued while speaking first tells the
    platform to stop and only then hands it the new utterance, which is
    then the only active one: the last call wins and nothing is queued. *)
Theorem C9_one_active_utterance
  (Done : Type) (ops : list (Synthesis.Op Done)) :
  let s := Synthesis.run ops Synthesis.idle in
  length (Synthesis.active s) <= 1
  /\ forall t d,
       Synthesis.isSpeaking s = true ->
       let u := {| Synthesis.text := t; Synthesis.onDone := d |} in
       Synthesis.trace (Synthesis.speak t d s)
       = Synthesis.trace s ++ [Synthesis.PlatformStop; Synthesis.PlatformSpeak u]
       /\ Synthesis.active (Synthesis.speak t d s) = [u].
Proof.
  intros s. assert (C : Synthesis.coherent s).
  { apply coherent_run, coherent_idle. }
  split; [apply C|]. intros t d Hs u.
  unfold Synthesis.speak, Synthesis.stopSpeaking. rewrite Hs. simpl.
  now rewrite <- app_assoc.
Qed.

Lemma C9_one_active_utterance_witness :
  let s := Synthesis.run
             [Synthesis.DoSpeak Demo.merhaba (Some 1); Synthesis.Completed;
              Synthesis.DoSpeak (lit "selam") (Some 2)] Synthesis.idle in
  let u := {| Synthesis.text := Demo.test_mesaji; Synthesis.onDone := Some 3 |} in
  length (Synthesis.active s) <= 1
  /\ Synthesis.active (Synthesis.speak Demo.test_mesaji (Some 3) s) = [u].
Proof.
  destruct (@C9_one_active_utterance nat
              [Synthesis.DoSpeak Demo.merhaba (Some 1); Synthesis.Completed;
               Synthesis.DoSpeak (lit "selam") (Some 2)]) as [Hlen Hspeak].
  split; [exact Hlen|].
  now destruct (Hspeak Demo.test_mesaji (Some 3) eq_refl) as [_ Ha].
Defined.

(** * Further properties of the hook *)

Section HookMore.

Variable Cb : Type.
Implicit Types (s : Sys Cb) (h : Handlers) (r : Snapshot) (e : Event Cb).

Lemma scan_lengths (l : list SpeechRecognitionResult) :
  length (concat (map alt0 (filter (fun x => negb (isFinal x)) l)))
  + length (concat (map alt0 (filter isFinal l)))
  = length (concat (map alt0 l)).
Proof.
  induction l as [|x l IH]; [reflexivity|]. simpl.
  destruct (isFinal x); simpl; rewrite !length_app; lia.
Qed.

Lemma silenceCallback_state h s : state (silenceCallback h s) = state s.
Proof.
  unfold silenceCallback, when, skip.
  now destruct (recognitionRef s), (isListening (render h)).
Qed.

Lemma run_timers_state fuel target s : state (run_timers fuel target s) = state s.
Proof.
  revert s. induction fuel as [|fuel IH]; intros s; simpl; [reflexivity|].
  destruct (earliest target (timers s)) as [t|]; [|reflexivity].
  rewrite IH. unfold fire, seq. now rewrite silenceCallback_state.
Qed.

Lemma elapse_state d s : state (elapse d s) = state s.
Proof. unfold elapse. cbn [state set_clock]. apply run_timers_state. Qed.

Lemma stopListening_state r s : state (stopListening r s) = state s.
Proof.
  unfold stopListening, seq. rewrite clearSilenceTimer_state.
  unfold when, skip. now destruct (recognitionRef s), (isListening r).
Qed.

Lemma cleanup_state s : state (cleanup s) = state s.
Proof.
  unfold cleanup, seq. rewrite clearSilenceTimer_state.
  now destruct (recognitionRef s).
Qed.

(** What an event of a session adds to the committed transcript. *)
Lemma in_session_step e s :
  in_session e = true ->
  finalTranscript (state (step e s))
  = finalTranscript (state s) ++ committed_by [e].
Proof.
  intros He. destruct e as [|h|h event|error|d|r cb|r| |]; try discriminate;
    cbn [step committed_by flat_map]; rewrite ?app_nil_r.
  - now rewrite onresult_state.
  - unfold onerror, seq. now rewrite clearSilenceTimer_state.
  - now rewrite elapse_state.
  - now rewrite stopListening_state.
  - now rewrite cleanup_state.
Qed.

Lemma committed_by_cons e (es : list (Event Cb)) :
  committed_by (e :: es) = committed_by [e] ++ committed_by es.
Proof. unfold committed_by. simpl. now rewrite app_nil_r. Qed.

Lemma stops_app (a b : list (Action Cb)) : stops (a ++ b) = stops a ++ stops b.
Proof. apply flat_map_app. Qed.

Lemma recognizer_calls_app (a b : list (Action Cb)) :
  recognizer_calls (a ++ b) = recognizer_calls a ++ recognizer_calls b.
Proof. apply filter_app. Qed.

Lemma timers_onend h s : timers (onend h s) = timers s.
Proof.
  unfold onend, seq. simpl.
  now destruct (truthy (finalTranscript (render h))), (onSpeechEndRef s).
Qed.

Lemma timers_startListening r cb s : timers (startListening r cb s) = timers s.
Proof.
  unfold startListening, when, skip.
  now destruct (recognitionRef s), (isListening r).
Qed.

Lemma run_timers_length fuel target s :
  length (timers (run_timers fuel target s)) <= length (timers s).
Proof.
  revert s. induction fuel as [|fuel IH]; intros s; simpl; [lia|].
  destruct (earliest target (timers s)) as [t|]; [|lia].
  etransitivity; [apply IH|].
  unfold fire, seq, silenceCallback, when, skip. simpl.
  destruct (recognitionRef s), (isListening (render (timer_env t))); simpl;
    apply filter_length_le.
Qed.

Lemma timers_step_le e s :
  one_timer s -> length (timers s) <= 1 -> length (timers (step e s)) <= 1.
Proof.
  intros W Hl. destruct e as [|h|h event|error|d|r cb|r| |]; simpl.
  - exact Hl.
  - now rewrite timers_onend.
  - destruct (onresult_timers h event W) as (-> & _). simpl. lia.
  - unfold onerror, seq. rewrite clearSilenceTimer_timers; [simpl; lia | exact W].
  - unfold elapse. cbn [timers set_clock].
    etransitivity; [apply run_timers_length | exact Hl].
  - now rewrite timers_startListening.
  - unfold stopListening, seq. rewrite clearSilenceTimer_timers; [simpl; lia|].
    unfold when, skip. destruct (recognitionRef s), (isListening r); exact W.
  - exact Hl.
  - rewrite cleanup_timers; [simpl; lia | exact W].
Qed.

Lemma timers_run_le (es : list (Event Cb)) s :
  one_timer s -> length (timers s) <= 1 -> length (timers (run es s)) <= 1.
Proof.
  revert s. induction es as [|e es IH]; intros s W Hl; [exact Hl|].
  apply (IH (step e s)); [now apply one_timer_step | now apply timers_step_le].
Qed.

End HookMore.

(** X1. The loop of the result handler sorts every new result into exactly
    one of its two accumulators: the interim and the final text of an event
    together are as long as the transcripts of all results from
    [resultIndex] on, and when [resultIndex] is not below the number of
    results both are empty. *)
Theorem X1_scan_results_partition (event : SpeechRecognitionEvent) :
  length (fst (scan_results event)) + length (snd (scan_results event))
  = length (concat (map alt0 (skipn (resultIndex event) (results event))))
  /\ (length (results event) <= resultIndex event ->
      scan_results event = ([], [])).
Proof.
  rewrite scan_results_spec. unfold interim_text, final_text, new_results. split.
  - apply scan_lengths.
  - intros Hlen. now rewrite skipn_all2.
Qed.

Lemma X1_scan_results_partition_witness :
  let event := {| results := [Demo.final_result Demo.merhaba]; resultIndex := 1 |} in
  length (results event) <= resultIndex event
  /\ scan_results event = ([], []).
Proof.
  split; [simpl; lia|].
  apply X1_scan_results_partition. simpl. lia.
Defined.

(** X2. Between the start and the end of a session the committed transcript
    only grows: whatever result events, errors, timer expiries, stop
    requests and cleanups occur, and in whatever order, the committed text
    afterwards is the committed text before followed by the final segments
    of the result events, in the order they arrived. *)
Theorem X2_committed_text_only_grows
  (Cb : Type) (es : list (Event Cb)) (s : Sys Cb) :
  forallb (@in_session Cb) es = true ->
  finalTranscript (state (run es s))
  = finalTranscript (state s) ++ committed_by es.
Proof.
  revert s. induction es as [|e es IH]; intros s Hes.
  - simpl. now rewrite app_nil_r.
  - simpl in Hes. apply andb_true_iff in Hes as [He Hes].
    change (run (e :: es) s) with (run es (step e s)).
    rewrite (IH _ Hes), (in_session_step _ _ He), (committed_by_cons e es).
    now rewrite app_assoc.
Qed.

Lemma X2_committed_text_only_grows_witness :
  let es := [OnResult Demo.heard_handlers Demo.test_mesaji_event; Elapse 500;
             OnError (lit "no-speech"); StopListening Demo.heard_render;
             OnResult Demo.heard_handlers Demo.merhaba_event] in
  forallb (@in_session nat) es = true
  /\ finalTranscript (state (run es Demo.in_flight))
     = Demo.merhaba ++ Demo.test_mesaji ++ Demo.merhaba.
Proof.
  split; [reflexivity|].
  rewrite X2_committed_text_only_grows; reflexivity.
Defined.

(** X3. In every state the hook reaches after it is mounted, by any events
    in any order, at most one timer is pending. *)
Theorem X3_at_most_one_pending_timer
  (Cb : Type) (available : bool) (r : Snapshot) (es : list (Event Cb)) :
  length (timers (run es (fst (effect available r mounted)))) <= 1.
Proof.
  apply timers_run_le.
  - apply one_timer_effect, one_timer_mounted.
  - unfold effect. destruct available; simpl; lia.
Qed.

Section Countdown.

Variable Cb : Type.
Implicit Types (s : Sys Cb) (h : Handlers) (r : Snapshot) (e : Event Cb).

(** Time passes and the only pending timer is not due yet: nothing but
    the clock changes. *)
Lemma elapse_quiet (t : Timer) d s :
  timers s = [t] -> (clock s + d < due t)%N ->
  elapse d s = set_clock (clock s + d) s.
Proof.
  intros Ht Hd. unfold elapse. rewrite Ht. cbn [length run_timers].
  rewrite Ht. cbn [earliest].
  destruct (N.leb_spec (due t) (clock s + d)); [lia | reflexivity].
Qed.

(** The only pending timer fires: afterwards none is pending. *)
Lemma elapse_fired_timers (t : Timer) d s :
  timers s = [t] -> (due t <= clock s + d)%N ->
  timers (elapse d s) = [].
Proof.
  intros Ht Hd. unfold elapse. rewrite Ht. cbn [length run_timers timers set_clock].
  rewrite Ht. cbn [earliest].
  destruct (N.leb_spec (due t) (clock s + d)); [|lia].
  cbn [run_timers]. unfold fire, seq, silenceCallback, when, skip.
  cbn [recognitionRef set_timers set_clock timers]. rewrite Ht. simpl.
  rewrite Pos.eqb_refl. simpl.
  now destruct (recognitionRef s), (isListening (render (timer_env t))).
Qed.

Lemma onresult_stops h event s :
  stops (trace (onresult h event s)) = stops (trace s).
Proof.
  rewrite onresult_trace, !stops_app.
  destruct (silenceTimerRef s); simpl; now rewrite app_nil_r.
Qed.

Lemma one_timer_set_clock now s : one_timer s -> one_timer (set_clock now s).
Proof. intros W. exact W. Qed.

(** The stop a listening render's timer issues when it fires. *)
Lemma silenceCallback_stops h s :
  recognitionRef s <> None -> isListening (render h) = true ->
  trace (silenceCallback h s) = trace s ++ [RecStop (recognition h)].
Proof.
  intros Hrec Hl. unfold silenceCallback. rewrite Hl.
  now destruct (recognitionRef s).
Qed.

End Countdown.

(** X5. The silence timer is single-shot: once it has fired and told the
    recognizer to stop, no further stop is issued however much more time
    passes without an event. *)
Theorem X5_silence_timer_fires_once
  (Cb : Type) (h : Handlers) (event : SpeechRecognitionEvent) (d1 d2 : N)
  (s : Sys Cb) :
  one_timer s ->
  recognitionRef s <> None ->
  isListening (render h) = true ->
  (2000 <= d1)%N ->
  let s1 := onresult h event s in
  stops (trace (elapse d2 (elapse d1 s1))) = stops (trace s) ++ [recognition h]
  /\ timers (elapse d1 s1) = [].
Proof.
  intros W Hrec Hl Hd1 s1.
  destruct (onresult_timers h event W) as (Ht & _ & Hc & Hrec1).
  fold s1 in Ht, Hc, Hrec1.
  assert (Hnone : timers (elapse d1 s1) = []).
  { eapply elapse_fired_timers; [exact Ht|]. cbn [due]. rewrite Hc. lia. }
  split; [|exact Hnone].
  rewrite elapse_none by exact Hnone.
  erewrite elapse_single by exact Ht. cbn [due timer_env].
  destruct (N.leb_spec (clock s + 2000) (clock s1 + d1)) as [H|H]; [|lia].
  rewrite silenceCallback_stops, stops_app; [|congruence|exact Hl].
  subst s1. now rewrite onresult_stops.
Qed.

Lemma X5_silence_timer_fires_once_witness :
  let s1 := onresult Demo.heard_handlers Demo.merhaba_event Demo.in_flight in
  one_timer Demo.in_flight
  /\ stops (trace (elapse 60000 (elapse 2000 s1))) = [1%positive].
Proof.
  assert (W : one_timer Demo.in_flight).
  { intros t [<-|[]]. reflexivity. }
  assert (R : recognitionRef Demo.in_flight <> None) by discriminate.
  assert (L : isListening (render Demo.heard_handlers) = true) by reflexivity.
  assert (D : (2000 <= 2000)%N) by discriminate.
  destruct (@X5_silence_timer_fires_once nat Demo.heard_handlers
              Demo.merhaba_event 2000 60000 Demo.in_flight W R L D) as [H _].
  split; [exact W | exact H].
Defined.

Section Gates.

Variable Cb : Type.
Implicit Types (s : Sys Cb) (h : Handlers) (r : Snapshot) (e : Event Cb).

Lemma run_timers_recognition fuel target s :
  recognitionRef (run_timers fuel target s) = recognitionRef s.
Proof.
  revert s. induction fuel as [|fuel IH]; intros s; simpl; [reflexivity|].
  destruct (earliest target (timers s)) as [t|]; [|reflexivity].
  rewrite IH. unfold fire, seq, silenceCallback, when, skip. simpl.
  destruct (recognitionRef s) eqn:E, (isListening (render (timer_env t)));
    simpl; congruence.
Qed.

(** No handler and no returned function changes which recognizer the hook
    holds: only the effect does. *)
Lemma step_recognition e s : recognitionRef (step e s) = recognitionRef s.
Proof.
  destruct e as [|h|h event|error|d|r cb|r| |]; simpl.
  - reflexivity.
  - unfold onend, seq. simpl.
    now destruct (truthy (finalTranscript (render h))), (onSpeechEndRef s).
  - unfold onresult. destruct (scan_results event) as [i f].
    unfold seq, armSilenceTimer. cbn [recognitionRef].
    rewrite clearSilenceTimer_recognition. unfold when, skip.
    now destruct (truthy f).
  - unfold onerror, seq. now rewrite clearSilenceTimer_recognition.
  - unfold elapse. cbn [recognitionRef set_clock]. apply run_timers_recognition.
  - unfold startListening, when, skip. destruct (recognitionRef s) eqn:E; [|exact E].
    now destruct (isListening r).
  - unfold stopListening, seq. rewrite clearSilenceTimer_recognition.
    unfold when, skip. destruct (recognitionRef s) eqn:E; [|exact E].
    now destruct (isListening r).
  - reflexivity.
  - unfold cleanup, seq. rewrite clearSilenceTimer_recognition.
    destruct (recognitionRef s) eqn:E; [exact E | exact E].
Qed.

Lemma run_timers_no_recognizer fuel target s :
  recognitionRef s = None -> trace (run_timers fuel target s) = trace s.
Proof.
  revert s. induction fuel as [|fuel IH]; intros s Hn; simpl; [reflexivity|].
  destruct (earliest target (timers s)) as [t|]; [|reflexivity].
  rewrite IH.
  - unfold fire, seq, silenceCallback. simpl. now rewrite Hn.
  - unfold fire, seq, silenceCallback. simpl. now rewrite Hn.
Qed.

(** Without a recognizer no event makes the hook call one. *)
Lemma step_no_recognizer e s :
  recognitionRef s = None ->
  recognizer_calls (trace (step e s)) = recognizer_calls (trace s).
Proof.
  intros Hn. destruct e as [|h|h event|error|d|r cb|r| |]; simpl.
  - reflexivity.
  - rewrite onend_calls, recognizer_calls_app.
    destruct (truthy (finalTranscript (render h))), (onSpeechEndRef s); simpl;
      now rewrite app_nil_r.
  - rewrite onresult_trace, !recognizer_calls_app.
    destruct (silenceTimerRef s); simpl; now rewrite app_nil_r.
  - unfold onerror, seq. rewrite clearSilenceTimer_trace, recognizer_calls_app.
    simpl. rewrite recognizer_calls_app. simpl.
    destruct (silenceTimerRef s); simpl; now rewrite !app_nil_r.
  - unfold elapse. cbn [trace set_clock]. now rewrite run_timers_no_recognizer.
  - unfold startListening. now rewrite Hn.
  - unfold stopListening, seq. rewrite clearSilenceTimer_trace, recognizer_calls_app.
    rewrite Hn. destruct (silenceTimerRef s); simpl; now rewrite app_nil_r.
  - reflexivity.
  - unfold cleanup, seq. rewrite clearSilenceTimer_trace, recognizer_calls_app.
    rewrite Hn. destruct (silenceTimerRef s); simpl; now rewrite app_nil_r.
Qed.

Lemma run_timers_isSupported fuel target s :
  isSupported (state (run_timers fuel target s)) = isSupported (state s).
Proof. now rewrite run_timers_state. Qed.

(** Only the effect sets [isSupported]. *)
Lemma step_isSupported e s :
  isSupported (state (step e s)) = isSupported (state s).
Proof.
  destruct e as [|h|h event|error|d|r cb|r| |]; cbn [step].
  - reflexivity.
  - unfold onend, seq. simpl.
    now destruct (truthy (finalTranscript (render h))), (onSpeechEndRef s).
  - now rewrite onresult_state.
  - unfold onerror, seq. now rewrite clearSilenceTimer_state.
  - now rewrite elapse_state.
  - unfold startListening, when, skip.
    now destruct (recognitionRef s), (isListening r).
  - now rewrite stopListening_state.
  - reflexivity.
  - now rewrite cleanup_state.
Qed.

Lemma unsupported_run (es : list (Event Cb)) s :
  recognitionRef s = None ->
  recognitionRef (run es s) = None
  /\ recognizer_calls (trace (run es s)) = recognizer_calls (trace s)
  /\ isSupported (state (run es s)) = isSupported (state s).
Proof.
  revert s. induction es as [|e es IH]; intros s Hn; [auto|].
  change (run (e :: es) s) with (run es (step e s)).
  destruct (IH (step e s)) as (H1 & H2 & H3).
  - now rewrite step_recognition.
  - rewrite H1, H2, H3, step_no_recognizer, step_isSupported; auto.
Qed.

(** With no callback stored, a step other than [startListening] invokes
    nothing and stores nothing. *)
Lemma step_no_callback e s :
  onSpeechEndRef s = None -> is_startListening e = false ->
  callback_calls (trace (step e s)) = callback_calls (trace s)
  /\ onSpeechEndRef (step e s) = None.
Proof.
  intros Hn He. split.
  - destruct e as [|h|h event|error|d|r cb|r| |]; try discriminate.
    + reflexivity.
    + simpl. rewrite onend_calls, Hn, callback_calls_app.
      destruct (truthy (finalTranscript (render h))); simpl; now rewrite app_nil_r.
    + destruct (step_calls (OnResult h event) s) as [delta [Hd Hl]].
      rewrite Hd. destruct delta; [now rewrite app_nil_r | simpl in Hl; lia].
    + destruct (step_calls (OnError error) s) as [delta [Hd Hl]].
      rewrite Hd. destruct delta; [now rewrite app_nil_r | simpl in Hl; lia].
    + destruct (step_calls (Elapse d) s) as [delta [Hd Hl]].
      rewrite Hd. destruct delta; [now rewrite app_nil_r | simpl in Hl; lia].
    + destruct (step_calls (StopListening r) s) as [delta [Hd Hl]].
      rewrite Hd. destruct delta; [now rewrite app_nil_r | simpl in Hl; lia].
    + reflexivity.
    + destruct (step_calls Cleanup s) as [delta [Hd Hl]].
      rewrite Hd. destruct delta; [now rewrite app_nil_r | simpl in Hl; lia].
  - rewrite step_callback; [exact Hn|].
    intros r cb ->. discriminate.
Qed.

Lemma run_no_callback (es : list (Event Cb)) s :
  onSpeechEndRef s = None ->
  forallb (fun e => negb (is_startListening e)) es = true ->
  callback_calls (trace (run es s)) = callback_calls (trace s)
  /\ onSpeechEndRef (run es s) = None.
Proof.
  revert s. induction es as [|e es IH]; intros s Hn Hes; [auto|].
  simpl in Hes. apply andb_true_iff in Hes as [He Hes].
  apply negb_true_iff in He.
  destruct (step_no_callback e s Hn He) as [Hc Hr].
  change (run (e :: es) s) with (run es (step e s)).
  destruct (IH (step e s) Hr Hes) as [Hc' Hr'].
  now rewrite Hc', Hc.
Qed.

End Gates.

(** X6. A recognition error is logged and ends listening without a turn:
    the hook leaves the listening state, cancels the silence countdown so
    that no stop is issued later, keeps both transcripts and the stored
    callback, and calls neither the recognizer nor the callback. *)
Theorem X6_error_returns_to_idle
  (Cb : Type) (error : jsstring) (s : Sys Cb) :
  one_timer s ->
  let s' := onerror error s in
  trace s' = trace s ++ [ConsoleError error]
             ++ match silenceTimerRef s with
                | Some t => [ClearTimeout t]
                | None => []
                end
  /\ isListening (state s') = false
  /\ finalTranscript (state s') = finalTranscript (state s)
  /\ transcript (state s') = transcript (state s)
  /\ onSpeechEndRef s' = onSpeechEndRef s
  /\ recognizer_calls (trace s') = recognizer_calls (trace s)
  /\ callback_calls (trace s') = callback_calls (trace s)
  /\ timers s' = []
  /\ (forall d, trace (elapse d s') = trace s').
Proof.
  intros W s'.
  assert (Ht : timers s' = []).
  { subst s'. unfold onerror, seq. now apply clearSilenceTimer_timers. }
  assert (Hst : state s' = state (setIsListening false s)).
  { subst s'. unfold onerror, seq. now rewrite clearSilenceTimer_state. }
  repeat apply conj; try (rewrite Hst; reflexivity).
  - subst s'. unfold onerror, seq. rewrite clearSilenceTimer_trace.
    cbn [trace emit setIsListening modify_state silenceTimerRef].
    now rewrite <- app_assoc.
  - subst s'. unfold onerror, seq. now rewrite clearSilenceTimer_callback.
  - subst s'. unfold onerror, seq.
    rewrite clearSilenceTimer_trace, recognizer_calls_app. cbn [trace emit setIsListening modify_state].
    rewrite recognizer_calls_app.
    destruct (silenceTimerRef _); simpl; now rewrite !app_nil_r.
  - subst s'. unfold onerror, seq. rewrite clearSilenceTimer_calls.
    cbn [trace emit setIsListening modify_state]. rewrite callback_calls_app.
    simpl. now rewrite app_nil_r.
  - exact Ht.
  - intros d. now apply elapse_none.
Qed.

Lemma X6_error_returns_to_idle_witness :
  let s' := onerror (lit "network") Demo.in_flight in
  one_timer Demo.in_flight
  /\ isListening (state s') = false
  /\ finalTranscript (state s') = Demo.merhaba
  /\ trace (elapse 5000 s') = trace s'.
Proof.
  assert (W : one_timer Demo.in_flight).
  { intros t [<-|[]]. reflexivity. }
  destruct (@X6_error_returns_to_idle nat (lit "network") Demo.in_flight W)
    as (_ & Hl & Hf & _ & _ & _ & _ & _ & Hq).
  split; [exact W|]. split; [exact Hl|]. split; [rewrite Hf; reflexivity|].
  apply Hq.
Defined.

(** X7. [stopListening] asks the recognizer to stop exactly when its render
    is listening, and in every case cancels the silence countdown, so that
    no stop follows later. It does not itself leave the listening state,
    touch the transcripts or invoke the callback: those wait for the
    recognizer's end event. *)
Theorem X7_stopListening_stops_once
  (Cb : Type) (r : Snapshot) (rec : RecognitionId) (s : Sys Cb) :
  one_timer s ->
  recognitionRef s = Some rec ->
  let s' := stopListening r s in
  stops (trace s') = stops (trace s) ++ (if isListening r then [rec] else [])
  /\ state s' = state s
  /\ callback_calls (trace s') = callback_calls (trace s)
  /\ timers s' = []
  /\ (forall d, trace (elapse d s') = trace s').
Proof.
  intros W Hrec s'.
  assert (Ht : timers s' = []).
  { subst s'. unfold stopListening, seq. apply clearSilenceTimer_timers.
    rewrite Hrec. unfold when, skip. destruct (isListening r); exact W. }
  repeat apply conj.
  - subst s'. unfold stopListening, seq.
    rewrite clearSilenceTimer_trace, stops_app, Hrec. unfold when, skip.
    destruct (isListening r); cbn [trace emit silenceTimerRef];
      rewrite ?stops_app; destruct (silenceTimerRef s); simpl;
      now rewrite ?app_nil_r.
  - apply stopListening_state.
  - subst s'. destruct (step_calls (StopListening r) s) as [delta [Hd Hl]].
    simpl in Hd. rewrite Hd. destruct delta; [apply app_nil_r | simpl in Hl; lia].
  - exact Ht.
  - intros d. now apply elapse_none.
Qed.

Lemma X7_stopListening_stops_once_witness :
  let s' := stopListening Demo.heard_render Demo.in_flight in
  one_timer Demo.in_flight
  /\ recognitionRef Demo.in_flight = Some 1%positive
  /\ stops (trace s') = [1%positive]
  /\ isListening (state s') = true
  /\ trace (elapse 5000 s') = trace s'.
Proof.
  assert (W : one_timer Demo.in_flight).
  { intros t [<-|[]]. reflexivity. }
  assert (R : recognitionRef Demo.in_flight = Some 1%positive) by reflexivity.
  destruct (@X7_stopListening_stops_once nat Demo.heard_render 1%positive
              Demo.in_flight W R) as (Hs & Hst & _ & _ & Hq).
  split; [exact W|]. split; [exact R|]. split; [rewrite Hs; reflexivity|].
  split; [rewrite Hst; reflexivity | apply Hq].
Defined.

(** X8. On a platform without speech recognition the effect installs
    nothing, and the hook stays inert whatever is called on it afterwards:
    it holds no recognizer, reports itself unsupported, never calls a
    recognizer, and [startListening] changes nothing at all. *)
Theorem X8_unsupported_platform_is_inert
  (Cb : Type) (r : Snapshot) (es : list (Event Cb)) :
  let s := run es (fst (effect false r mounted)) in
  recognitionRef s = None
  /\ isSupported (state s) = false
  /\ recognizer_calls (trace s) = []
  /\ (forall r' (cb : option Cb), startListening r' cb s = s).
Proof.
  intros s.
  destruct (@unsupported_run Cb es (fst (effect false r mounted)) eq_refl)
    as (H1 & H2 & H3).
  fold s in H1, H2, H3. repeat apply conj; auto.
  intros r' cb. unfold startListening. now rewrite H1.
Qed.

(** X9. A session started without a callback never runs one: whatever
    events follow, short of another [startListening], no callback is
    invoked, and at the end of the session the committed transcript is
    left in place for the caller. *)
Theorem X9_session_without_callback
  (Cb : Type) (r : Snapshot) (es : list (Event Cb)) (s : Sys Cb) :
  recognitionRef s <> None ->
  isListening r = false ->
  forallb (fun e => negb (is_startListening e)) es = true ->
  let s' := run es (startListening r None s) in
  callback_calls (trace s') = callback_calls (trace s)
  /\ (forall h, finalTranscript (state (onend h s')) = finalTranscript (state s')).
Proof.
  intros Hrec Hl Hes s'.
  assert (H0 : onSpeechEndRef (startListening r None s) = None
               /\ callback_calls (trace (startListening r None s))
                  = callback_calls (trace s)).
  { unfold startListening. destruct (recognitionRef s); [|contradiction].
    rewrite Hl. simpl. rewrite callback_calls_app. simpl.
    now rewrite app_nil_r. }
  destruct H0 as [Hn Hc].
  destruct (run_no_callback es _ Hn Hes) as [Hc' Hn']. fold s' in Hc', Hn'.
  split; [now rewrite Hc', Hc|].
  intros h. unfold onend, seq. cbn [onSpeechEndRef setIsListening modify_state].
  rewrite Hn'. now destruct (truthy (finalTranscript (render h))).
Qed.

Lemma X9_session_without_callback_witness :
  let es := [OnStart; OnResult Demo.listening_handlers Demo.merhaba_event;
             Elapse 2000; OnEnd Demo.heard_handlers] in
  let s' := run es (startListening Demo.idle_render None (@Demo.ready nat)) in
  recognitionRef (@Demo.ready nat) <> None
  /\ callback_calls (trace s') = []
  /\ finalTranscript (state s') = Demo.merhaba.
Proof.
  assert (R : recognitionRef (@Demo.ready nat) <> None) by discriminate.
  destruct (@X9_session_without_callback nat Demo.idle_render
              [OnStart; OnResult Demo.listening_handlers Demo.merhaba_event;
               Elapse 2000]
              Demo.ready R eq_refl eq_refl) as [Hc Hkeep].
  split; [exact R|]. split.
  - destruct (@X9_session_without_callback nat Demo.idle_render
                [OnStart; OnResult Demo.listening_handlers Demo.merhaba_event;
                 Elapse 2000; OnEnd Demo.heard_handlers]
                Demo.ready R eq_refl eq_refl) as [Hc' _].
    exact Hc'.
  - exact (Hkeep Demo.heard_handlers).
Defined.

Section EffectRuns.

Variable Cb : Type.
Implicit Types (s : Sys Cb) (h : Handlers) (r : Snapshot).

Lemma same_deps_true (a b : Snapshot) :
  same_deps a b = true
  <-> isListening a = isListening b /\ finalTranscript a = finalTranscript b.
Proof.
  unfold same_deps. rewrite andb_true_iff, eqb_true_iff.
  destruct (list_eq_dec N.eq_dec (finalTranscript a) (finalTranscript b));
    intuition congruence.
Qed.

Lemma same_deps_false (a b : Snapshot) :
  isListening a <> isListening b \/ finalTranscript a <> finalTranscript b ->
  same_deps a b = false.
Proof.
  intros H. destruct (same_deps a b) eqn:E; [|reflexivity].
  apply same_deps_true in E. tauto.
Qed.

Lemma cleanup_nextRecognition s : nextRecognition (cleanup s) = nextRecognition s.
Proof.
  unfold cleanup, seq, clearSilenceTimer.
  destruct (recognitionRef s); cbn [silenceTimerRef emit];
    destruct (silenceTimerRef s); reflexivity.
Qed.

(** The effect runs again: the recognizer held so far is aborted, the
    referenced timer cancelled and a new recognizer installed. *)
Lemma rerun_effect (rec : RecognitionId) s :
  one_timer s -> recognitionRef s = Some rec ->
  let s' := fst (effect true (state s) (cleanup s)) in
  trace s' = trace s ++ [RecAbort rec]
             ++ match silenceTimerRef s with
                | Some t => [ClearTimeout t]
                | None => []
                end
  /\ timers s' = []
  /\ recognitionRef s' = Some (nextRecognition s)
  /\ finalTranscript (state s') = finalTranscript (state s)
  /\ isListening (state s') = isListening (state s)
  /\ onSpeechEndRef s' = onSpeechEndRef s.
Proof.
  intros W Hrec s'. subst s'. unfold effect. cbn [fst].
  cbn [trace timers recognitionRef state onSpeechEndRef setIsSupported modify_state
       nextRecognition finalTranscript isListening].
  rewrite cleanup_trace, Hrec, cleanup_timers, cleanup_state, cleanup_callback,
    cleanup_nextRecognition by exact W.
  repeat apply conj; reflexivity.
Qed.

End EffectRuns.

(** ** Events under React *)

Section ReactFacts.

Variable Cb : Type.
Implicit Types (s : Sys Cb) (h : Handlers) (e : Event Cb).

(** A commit changes neither the transcripts nor the listening flag nor
    the stored callback; it invokes no callback and stops no recognizer. *)
Lemma commit_keeps available (prev : Snapshot) s :
  finalTranscript (state (commit available prev s)) = finalTranscript (state s)
  /\ transcript (state (commit available prev s)) = transcript (state s)
  /\ isListening (state (commit available prev s)) = isListening (state s)
  /\ onSpeechEndRef (commit available prev s) = onSpeechEndRef s
  /\ callback_calls (trace (commit available prev s)) = callback_calls (trace s)
  /\ stops (trace (commit available prev s)) = stops (trace s).
Proof.
  unfold commit. destruct (same_deps prev (state s)); [now auto 6|].
  unfold effect. destruct available;
    cbn [fst state setIsSupported modify_state finalTranscript transcript
         isListening onSpeechEndRef trace];
    rewrite cleanup_state, cleanup_callback, cleanup_trace,
      !callback_calls_app, !stops_app;
    destruct (recognitionRef s), (silenceTimerRef s); simpl;
    rewrite ?app_nil_r; now auto 6.
Qed.

Lemma one_timer_commit available (prev : Snapshot) s :
  one_timer s -> one_timer (commit available prev s).
Proof.
  intros W. unfold commit. destruct (same_deps prev (state s)); [exact W|].
  apply one_timer_effect, one_timer_nil, cleanup_timers, W.
Qed.

Lemma one_timer_react e s : one_timer s -> one_timer (react e s).
Proof. intros W. apply one_timer_commit, one_timer_step, W. Qed.

Lemma one_timer_react_run (es : list (Event Cb)) s :
  one_timer s -> one_timer (react_run es s).
Proof.
  revert s. induction es as [|e es IH]; intros s W; [exact W|].
  apply (IH (react e s)). now apply one_timer_react.
Qed.

(** When a commit runs the effect again, no timer is left pending. *)
Lemma commit_rerun_timers (prev : Snapshot) s :
  one_timer s -> same_deps prev (state s) = false ->
  timers (commit true prev s) = [].
Proof.
  intros W E. unfold commit. rewrite E. unfold effect. cbn [fst timers].
  change (timers (setIsSupported true (cleanup s))) with (timers (cleanup s)).
  now apply cleanup_timers.
Qed.

(** The timer callback of handlers that captured [isListening = false]
    stops nothing. *)
Lemma silenceCallback_idle h s :
  isListening (render h) = false -> silenceCallback h s = s.
Proof.
  intros Hl. unfold silenceCallback. rewrite Hl. now destruct (recognitionRef s).
Qed.

(** A result event received by such handlers: however much time passes
    afterwards, no recognizer is told to stop. *)
Lemma idle_closure_never_stops h (event : SpeechRecognitionEvent) d s :
  one_timer s -> isListening (render h) = false ->
  stops (trace (elapse d (onresult h event s))) = stops (trace s).
Proof.
  intros W Hl. destruct (onresult_timers h event W) as (Ht & _).
  erewrite elapse_single by exact Ht. cbn [due timer_env].
  rewrite silenceCallback_idle by exact Hl.
  destruct (_ <=? _)%N; apply onresult_stops.
Qed.

(** The same when the render the event causes is committed. *)
Lemma idle_closure_never_stops_react h (event : SpeechRecognitionEvent) d s :
  one_timer s -> isListening (render h) = false ->
  stops (trace (elapse d (react (OnResult h event) s))) = stops (trace s).
Proof.
  intros W Hl. unfold react. cbn [step].
  destruct (same_deps (state s) (state (onresult h event s))) eqn:E.
  - unfold commit. rewrite E. now apply idle_closure_never_stops.
  - rewrite elapse_none.
    + destruct (commit_keeps true (state s) (onresult h event s))
        as (_ & _ & _ & _ & _ & ->).
      apply onresult_stops.
    + apply commit_rerun_timers; [|exact E].
      apply (one_timer_step (OnResult h event)), W.
Qed.

End ReactFacts.

(** An event that changes no dependency of the effect: the commit that
    follows leaves the hook alone. *)
Lemma react_interim (Cb : Type) (h : Handlers) (event : SpeechRecognitionEvent)
  (s : Sys Cb) :
  final_text event = [] -> react (OnResult h event) s = onresult h event s.
Proof.
  intros Hf. unfold react, commit. cbn [step].
  replace (same_deps (state s) (state (onresult h event s))) with true;
    [reflexivity|].
  symmetry. apply same_deps_true. rewrite onresult_state, Hf.
  cbn [isListening finalTranscript]. now rewrite app_nil_r.
Qed.

Lemma react_elapse (Cb : Type) (d : N) (s : Sys Cb) :
  react (Elapse d) s = elapse d s.
Proof.
  unfold react, commit. cbn [step].
  replace (same_deps (state s) (state (elapse d s))) with true; [reflexivity|].
  symmetry. apply same_deps_true. now rewrite elapse_state.
Qed.

(** X4. The silence countdown restarts at every result event. When a
    result event without final text is followed, less than 2000 ms later,
    by another one, the commits in between leave the hook alone and the
    timer of the first event is cancelled: the only pending timer is the
    one of the second event, due 2000 ms after it, and until then no timer
    callback runs, however long ago the first event was. *)
Theorem X4_countdown_restarts
  (Cb : Type) (h : Handlers) (e1 e2 : SpeechRecognitionEvent) (d1 : N)
  (s : Sys Cb) :
  one_timer s ->
  final_text e1 = [] ->
  final_text e2 = [] ->
  (d1 < 2000)%N ->
  let s' := react_run [OnResult h e1; Elapse d1; OnResult h e2] s in
  s' = run [OnResult h e1; Elapse d1; OnResult h e2] s
  /\ timers s' = [{| timer_id := Pos.succ (nextTimer s);
                     due := clock s + d1 + 2000; timer_env := h |}]
  /\ (forall d2, (d2 < 2000)%N -> trace (elapse d2 s') = trace s').
Proof.
  intros W Hf1 Hf2 Hd1 s'.
  assert (Hs' : s' = run [OnResult h e1; Elapse d1; OnResult h e2] s).
  { subst s'. unfold react_run, run. cbn [fold_left].
    rewrite (@react_interim Cb h e1 s Hf1), react_elapse. apply react_interim, Hf2. }
  split; [exact Hs'|]. rewrite Hs'. clear Hs' s'.
  change (run [OnResult h e1; Elapse d1; OnResult h e2] s)
    with (onresult h e2 (elapse d1 (onresult h e1 s))).
  destruct (onresult_timers h e1 W) as (Ht1 & Hr1 & Hc1 & _).
  set (s1 := onresult h e1 s) in *.
  assert (Hn1 : nextTimer s1 = Pos.succ (nextTimer s)).
  { subst s1. unfold onresult. destruct (scan_results e1) as [i f].
    unfold seq, armSilenceTimer. cbn [nextTimer].
    rewrite clearSilenceTimer_nextTimer.
    unfold when, skip. now destruct (truthy f). }
  assert (E2 : elapse d1 s1 = set_clock (clock s1 + d1) s1).
  { apply elapse_quiet with (t := {| timer_id := nextTimer s;
                                      due := clock s + 2000; timer_env := h |});
      [exact Ht1 | simpl; lia]. }
  assert (W2 : one_timer (elapse d1 s1)).
  { rewrite E2. intros t Hin. cbn [set_clock timers silenceTimerRef] in *.
    rewrite Ht1 in Hin. destruct Hin as [<-|[]]. exact Hr1. }
  destruct (onresult_timers h e2 W2) as (Ht3 & _ & Hc3 & _).
  assert (Hcl : clock (elapse d1 s1) = (clock s + d1)%N).
  { rewrite E2. cbn [set_clock clock]. now rewrite Hc1. }
  assert (Hnt : nextTimer (elapse d1 s1) = Pos.succ (nextTimer s)).
  { rewrite E2. cbn [set_clock nextTimer]. exact Hn1. }
  rewrite Hcl, Hnt in Ht3. split; [exact Ht3|].
  intros d2 Hd2. erewrite elapse_single by exact Ht3. cbn [due timer_env].
  destruct (N.leb_spec (clock s + d1 + 2000)
              (clock (onresult h e2 (elapse d1 s1)) + d2)%N) as [H|H];
    [rewrite Hc3, Hcl in H; lia | reflexivity].
Qed.

Lemma X4_countdown_restarts_witness :
  let interim t := {| results := [Demo.interim_result t]; resultIndex := 0 |} in
  let s0 := @Demo.ready nat in
  let s' := react_run [OnResult mount_handlers (interim (lit "mer"));
                       Elapse 1500;
                       OnResult mount_handlers (interim (lit "merha"))] s0 in
  one_timer s0
  /\ final_text (interim (lit "mer")) = []
  /\ timers s' = [{| timer_id := 2%positive; due := 3500; timer_env := mount_handlers |}]
  /\ trace (elapse 1999 s') = trace s'.
Proof.
  intros interim s0.
  assert (W : one_timer s0) by (intros t []).
  assert (D : (1500 < 2000)%N) by reflexivity.
  destruct (@X4_countdown_restarts nat mount_handlers (interim (lit "mer"))
              (interim (lit "merha")) 1500 s0 W eq_refl eq_refl D)
    as (_ & Ht & Hquiet).
  split; [exact W|]. split; [reflexivity|]. split; [exact Ht|].
  apply Hquiet. reflexivity.
Defined.


(** X10. The effect depends on [isListening] and [finalTranscript]. Take
    a state whose render is the one the effect last ran for. A result
    event with no final text changes neither dependency, so the commit
    that follows leaves the hook alone. A result event with final text
    changes [finalTranscript]: the commit that follows runs the cleanup
    and the effect again, which aborts the recognizer held so far, cancels
    the timer the handler has just armed and installs a new recognizer, so
    that no silence stop is issued afterwards. *)
Theorem X10_commit_after_result
  (Cb : Type) (h : Handlers) (event : SpeechRecognitionEvent)
  (rec : RecognitionId) (s : Sys Cb) :
  one_timer s ->
  recognitionRef s = Some rec ->
  let s1 := onresult h event s in
  let s2 := commit true (state s) s1 in
  (final_text event = [] -> s2 = s1)
  /\ (final_text event <> [] ->
      trace s2 = trace s1 ++ [RecAbort rec; ClearTimeout (nextTimer s)]
      /\ timers s2 = []
      /\ recognitionRef s2 = Some (nextRecognition s)
      /\ forall d, stops (trace (elapse d s2)) = stops (trace s)).
Proof.
  intros W Hrec s1 s2.
  destruct (onresult_timers h event W) as (Ht & Hr & _ & Hrec1).
  fold s1 in Ht, Hr, Hrec1.
  assert (W1 : one_timer s1).
  { intros t Hin. rewrite Ht in Hin. destruct Hin as [<-|[]]. exact Hr. }
  split; intros Hf; subst s2; unfold commit.
  - replace (same_deps (state s) (state s1)) with true; [reflexivity|].
    symmetry. apply same_deps_true. subst s1. rewrite onresult_state, Hf.
    cbn [isListening finalTranscript]. now rewrite app_nil_r.
  - rewrite same_deps_false.
    + rewrite Hrec in Hrec1.
      destruct (rerun_effect W1 Hrec1) as (Htr & Htm & Hre & _).
      rewrite Hr in Htr.
      assert (Hnr : nextRecognition s1 = nextRecognition s).
      { subst s1. unfold onresult. destruct (scan_results event) as [i f].
        unfold seq, armSilenceTimer, clearSilenceTimer, when, skip.
        cbn [nextRecognition].
        destruct (truthy f); cbn [silenceTimerRef updFinalTranscript
          setTranscript modify_state]; destruct (silenceTimerRef s); reflexivity. }
      rewrite Hnr in Hre.
      repeat apply conj; [exact Htr | exact Htm | exact Hre |].
      intros d. rewrite elapse_none by exact Htm.
      rewrite Htr, stops_app. simpl. rewrite app_nil_r.
      subst s1. apply onresult_stops.
    + right. subst s1. rewrite onresult_state. cbn [finalTranscript].
      intros E. apply Hf.
      apply (app_inv_head (finalTranscript (state s))).
      now rewrite app_nil_r.
Qed.

Lemma X10_commit_after_result_witness :
  let s1 := onresult Demo.heard_handlers Demo.test_mesaji_event Demo.in_flight in
  let s2 := commit true (state Demo.in_flight) s1 in
  one_timer Demo.in_flight
  /\ final_text Demo.test_mesaji_event <> []
  /\ trace s2 = trace s1 ++ [RecAbort 1%positive; ClearTimeout 2%positive]
  /\ stops (trace (elapse 2000 s2)) = [].
Proof.
  assert (W : one_timer Demo.in_flight).
  { intros t [<-|[]]. reflexivity. }
  assert (R : recognitionRef Demo.in_flight = Some 1%positive) by reflexivity.
  assert (F : final_text Demo.test_mesaji_event <> []) by discriminate.
  destruct (@X10_commit_after_result nat Demo.heard_handlers
              Demo.test_mesaji_event 1%positive Demo.in_flight W R) as [_ H].
  destruct (H F) as (Htr & _ & _ & Hq).
  split; [exact W|]. split; [exact F|]. split; [exact Htr | apply Hq].
Defined.

(** X11. The recognizer's start event sets [isListening], a dependency of
    the effect. When it was false in the render the effect last ran for,
    the commit that follows aborts the recognizer that has just started
    and installs a new one, which has not been started. *)
Theorem X11_commit_after_start
  (Cb : Type) (rec : RecognitionId) (s : Sys Cb) :
  one_timer s ->
  recognitionRef s = Some rec ->
  isListening (state s) = false ->
  let s' := commit true (state s) (onstart s) in
  recognizer_calls (trace s') = recognizer_calls (trace s) ++ [RecAbort rec]
  /\ recognitionRef s' = Some (nextRecognition s)
  /\ isListening (state s') = true.
Proof.
  intros W Hrec Hl s'. subst s'. unfold commit.
  rewrite same_deps_false.
  - assert (W1 : one_timer (onstart s)) by exact W.
    assert (R1 : recognitionRef (onstart s) = Some rec) by exact Hrec.
    destruct (rerun_effect W1 R1) as (Htr & _ & Hre & _ & Hli & _).
    repeat apply conj.
    + rewrite Htr, !recognizer_calls_app. cbn [onstart].
      change (trace (onstart s)) with (trace s).
      change (silenceTimerRef (onstart s)) with (silenceTimerRef s).
      destruct (silenceTimerRef s); simpl; now rewrite ?app_nil_r.
    + exact Hre.
    + rewrite Hli. reflexivity.
  - left. rewrite Hl. discriminate.
Qed.

Lemma X11_commit_after_start_witness :
  let started := startListening Demo.idle_render (Some 7) (@Demo.ready nat) in
  let s' := commit true (state started) (onstart started) in
  one_timer started
  /\ isListening (state started) = false
  /\ recognizer_calls (trace s') = [RecStart 1%positive; RecAbort 1%positive]
  /\ recognitionRef s' = Some 2%positive.
Proof.
  assert (W : one_timer (startListening Demo.idle_render (Some 7) (@Demo.ready nat))).
  { intros t []. }
  assert (R : recognitionRef (startListening Demo.idle_render (Some 7) (@Demo.ready nat))
              = Some 1%positive) by reflexivity.
  destruct (@X11_commit_after_start nat 1%positive
              (startListening Demo.idle_render (Some 7) Demo.ready) W R eq_refl)
    as (Hc & Hr & _).
  split; [exact W|]. split; [reflexivity|]. split; [exact Hc | exact Hr].
Defined.

(** What [stopListening] does to the stops and to the timers. *)
Lemma stopListening_stops_and_timers (Cb : Type) (r : Snapshot) (rec : RecognitionId) (s : Sys Cb) :
  one_timer s ->
  recognitionRef s = Some rec ->
  stops (trace (stopListening r s))
  = stops (trace s) ++ (if isListening r then [rec] else [])
  /\ timers (stopListening r s) = [].
Proof.
  intros W Hrec. split.
  - unfold stopListening, seq.
    rewrite clearSilenceTimer_trace, stops_app, Hrec. unfold when, skip.
    destruct (isListening r); cbn [trace emit silenceTimerRef];
      rewrite ?stops_app; destruct (silenceTimerRef s); simpl;
      now rewrite ?app_nil_r.
  - unfold stopListening, seq. apply clearSilenceTimer_timers.
    rewrite Hrec. unfold when, skip. destruct (isListening r); exact W.
Qed.

Lemma stopListening_recognizer_calls
  (Cb : Type) (r : Snapshot) (rec : RecognitionId) (s : Sys Cb) :
  recognitionRef s = Some rec ->
  recognizer_calls (trace (stopListening r s))
  = recognizer_calls (trace s) ++ (if isListening r then [RecStop rec] else []).
Proof.
  intros Hrec. unfold stopListening, seq.
  rewrite clearSilenceTimer_trace, recognizer_calls_app, Hrec. unfold when, skip.
  destruct (isListening r); cbn [trace emit silenceTimerRef];
    rewrite ?recognizer_calls_app; destruct (silenceTimerRef s); simpl;
    now rewrite ?app_nil_r.
Qed.

(** * Further properties of the component *)

Section PageFacts.

Import Page.

Lemma requests_app (a b : list Call) : requests (a ++ b) = requests a ++ requests b.
Proof. apply flat_map_app. Qed.

Lemma speech_calls_app (a b : list Call) :
  speech_calls (a ++ b) = speech_calls a ++ speech_calls b.
Proof. apply filter_app. Qed.

Lemma sendable_guard r :
  sendable r ->
  negb (truthy (trim (input (page r))))
  && match attachment (page r) with Some _ => false | None => true end = false.
Proof.
  intros [H|H].
  - destruct (trim (input (page r))); [contradiction | reflexivity].
  - destruct (attachment (page r)); [apply andb_false_r | contradiction].
Qed.

(** X12. [handleSendMessage] ignores a send with nothing to send: when the
    input is empty or whitespace only and no file is attached, the state
    is left exactly as it was (no message, no backend call, input kept). *)
Theorem X12_blank_send_is_ignored
  (r : Render) (now : N) (outcome : App.Outcome) (later : N) (st : State) :
  forallb is_space (input (page r)) = true ->
  attachment (page r) = None ->
  handleSendMessage r now outcome later st = st.
Proof.
  intros Hb Ha. unfold handleSendMessage.
  apply trim_blank in Hb. rewrite Hb, Ha. reflexivity.
Qed.

Lemma X12_blank_send_is_ignored_witness :
  forallb is_space (input (page (page_render (lit "   ") None))) = true
  /\ handleSendMessage (page_render (lit "   ") None) 1
       (App.Resolves Demo.selam) 2 (page_state (lit "   ") None)
     = page_state (lit "   ") None.
Proof.
  split; [reflexivity|].
  apply X12_blank_send_is_ignored; reflexivity.
Defined.

(** X13. A send that passes the guard, with text or with only an
    attachment, appends exactly two messages, the user's (with the
    attachment) and then the bot's answer or error text, empties the input
    and the attachment, makes exactly one backend request carrying the
    input as typed and the attachment, and ends with the loading flag
    cleared, whether the request succeeds or throws. It touches neither
    the recognizer nor voice mode. *)
Theorem X13_send_appends_two_messages
  (r : Render) (now : N) (outcome : App.Outcome) (later : N) (st : State) :
  sendable r ->
  let st' := handleSendMessage r now outcome later st in
  messages (cells st')
  = messages (cells st) ++ [userMessage r now; botMessage outcome later]
  /\ input (cells st') = []
  /\ attachment (cells st') = None
  /\ isLoading (cells st') = false
  /\ requests (calls st')
     = requests (calls st)
       ++ [(input (page r),
            match attachment (page r) with Some a => Some [a] | None => None end,
            None)]
  /\ recognizer st' = recognizer st
  /\ isVoiceMode (cells st') = isVoiceMode (cells st).
Proof.
  intros Hs st'. subst st'. unfold handleSendMessage.
  rewrite (sendable_guard Hs).
  unfold seq, when, skip, userMessage, botMessage.
  destruct (isVoiceMode (page r)); simpl;
    destruct outcome as [data|[m|]]; simpl;
    try (destruct (App.response_sources data) as [[|src l]|]);
    try (destruct (autoSpeak (page r) && truthy (App.textResponse data)));
    simpl; rewrite <- ?app_assoc, ?requests_app; simpl;
    rewrite ?app_nil_r; repeat apply conj; reflexivity.
Qed.

Lemma X13_send_appends_two_messages_witness :
  let photo := {| name := lit "a.png"; mime := lit "image/png";
                  contentString := lit "data:image/png;base64,AA" |} in
  let st' := handleSendMessage (page_render (lit " ") (Some photo)) 1
               (App.Throws App.OtherError) 2 (page_state (lit " ") (Some photo)) in
  sendable (page_render (lit " ") (Some photo))
  /\ map (fun m => App.message (sent m)) (messages (cells st'))
     = [lit " "; App.defaultErrorMessage]
  /\ requests (calls st') = [(lit " ", Some [photo], None)]
  /\ isLoading (cells st') = false.
Proof.
  intros photo.
  assert (S : sendable (page_render (lit " ") (Some photo))).
  { right. discriminate. }
  destruct (@X13_send_appends_two_messages (page_render (lit " ") (Some photo)) 1
              (App.Throws App.OtherError) 2 (page_state (lit " ") (Some photo)) S)
    as (Hm & _ & _ & Hl & Hr & _).
  split; [exact S|]. split; [rewrite Hm; reflexivity|].
  split; [rewrite Hr; reflexivity | exact Hl].
Defined.

(** X14. A typed send never starts speech itself. When the request
    succeeds, the answer is scheduled to be spoken 500 ms later exactly
    when auto-speak is on and the answer text is not empty; when the
    request throws, nothing is spoken or scheduled. *)
Theorem X14_send_schedules_speech
  (r : Render) (now : N) (outcome : App.Outcome) (later : N) (st : State) :
  sendable r ->
  speech_calls (calls (handleSendMessage r now outcome later st))
  = speech_calls (calls st)
    ++ match outcome with
       | App.Resolves data =>
           if autoSpeak (page r) && truthy (App.textResponse data)
           then [SpeakAfter (App.textResponse data) 500]
           else []
       | App.Throws _ => []
       end.
Proof.
  intros Hs. unfold handleSendMessage. rewrite (sendable_guard Hs).
  unfold seq, when, skip.
  destruct (isVoiceMode (page r)); simpl;
    destruct outcome as [data|[m|]]; simpl;
    try (destruct (App.response_sources data) as [[|src l]|]);
    try (destruct (autoSpeak (page r) && truthy (App.textResponse data)));
    simpl; rewrite <- ?app_assoc, ?speech_calls_app; simpl;
    rewrite ?app_nil_r; reflexivity.
Qed.

Lemma X14_send_schedules_speech_witness :
  sendable (page_render Demo.merhaba None)
  /\ speech_calls (calls (handleSendMessage (page_render Demo.merhaba None) 1
                           (App.Resolves Demo.selam) 2
                           (page_state Demo.merhaba None)))
     = [SpeakAfter (lit "selam") 500].
Proof.
  assert (S : sendable (page_render Demo.merhaba None)).
  { left. discriminate. }
  split; [exact S|].
  rewrite X14_send_schedules_speech by exact S. reflexivity.
Defined.

(** X15. [handleResetChat] does nothing while a request is loading.
    Otherwise it empties the message list and the sources, hides the
    sources panel, leaves voice mode, stops speech and listening and sends
    one request with empty text and the reset flag; when that request
    throws, the error is only logged, and the component ends in the same
    state as when it succeeds. The input and the attachment are kept. *)
Theorem X15_reset_chat
  (r : Render) (outcome : App.Outcome) (st : State) :
  (isLoading (page r) = true -> handleResetChat r outcome st = st)
  /\ (isLoading (page r) = false ->
      let st' := handleResetChat r outcome st in
      messages (cells st') = []
      /\ sources (cells st') = []
      /\ showSources (cells st') = false
      /\ isVoiceMode (cells st') = false
      /\ input (cells st') = input (cells st)
      /\ attachment (cells st') = attachment (cells st)
      /\ recognizer st' = stopListening (speech r) (recognizer st)
      /\ calls st'
         = calls st
           ++ [StopSpeaking;
               SendChatMessage [] (mode (page r)) App.sessionId None (Some true)]
           ++ match outcome with
              | App.Resolves _ => []
              | App.Throws _ => [LogError ResetFailed]
              end
      /\ (forall data error,
            cells (handleResetChat r (App.Throws error) st)
            = cells (handleResetChat r (App.Resolves data) st)
            /\ recognizer (handleResetChat r (App.Throws error) st)
               = recognizer (handleResetChat r (App.Resolves data) st))).
Proof.
  split; intros Hl; unfold handleResetChat; rewrite Hl; [reflexivity|].
  unfold seq, skip. destruct outcome; simpl;
    rewrite <- ?app_assoc; repeat apply conj; auto.
Qed.

Lemma X15_reset_chat_witness :
  let r := page_render Demo.merhaba None in
  let st := handleSendMessage r 1 (App.Resolves Demo.selam) 2
              (page_state Demo.merhaba None) in
  let st' := handleResetChat r (App.Throws App.OtherError) st in
  isLoading (page r) = false
  /\ length (messages (cells st)) = 2
  /\ messages (cells st') = []
  /\ requests (calls st')
     = [(Demo.merhaba, None, None); ([], None, Some true)].
Proof.
  intros r st.
  destruct (X15_reset_chat r (App.Throws App.OtherError) st) as [_ H].
  destruct (H eq_refl) as (Hm & _ & _ & _ & _ & _ & _ & Hr & _).
  split; [reflexivity|]. split; [reflexivity|]. split; [exact Hm|].
  rewrite Hr, !requests_app. reflexivity.
Defined.

(** The turn handler of a render with voice mode off re-arms nothing. *)
Lemma turn_without_voice_mode (v : App.Render) text now outcome later w :
  App.isVoiceMode (App.app v) = false ->
  App.timers_set (App.calls (App.handleVoiceConversation v text now outcome later w))
  = App.timers_set (App.calls w).
Proof.
  intros Hv. unfold App.handleVoiceConversation.
  destruct (truthy (trim text)); [|reflexivity].
  unfold App.seq, App.when, App.skip. simpl.
  destruct outcome as [data|error]; simpl.
  - destruct (App.response_sources data) as [[|src l]|],
      (truthy (App.textResponse data)); simpl;
      rewrite ?timers_set_app; simpl; rewrite ?timers_set_app; simpl;
      rewrite ?timers_set_app; simpl; now rewrite ?app_nil_r.
  - rewrite Hv. simpl. rewrite !timers_set_app. simpl. now rewrite !app_nil_r.
Qed.

(** X16. [handleVoiceToggle] turns voice mode on from a render in which it
    is off, and the turn handler it registers is the one of that render.
    That handler therefore sees voice mode off: a turn it runs sets no
    timer to listen again, whether the backend answers or throws, and the
    completion callback it passes to [speak] does nothing. *)
Theorem X16_toggle_registers_handler_of_its_render
  (r : Render) (rec : RecognitionId) (st : State) :
  isVoiceMode (page r) = false ->
  recognitionRef (recognizer st) = Some rec ->
  isListening (speech r) = false ->
  let st' := handleVoiceToggle r st in
  isVoiceMode (cells st') = true
  /\ onSpeechEndRef (recognizer st') = Some (voice r)
  /\ trace (recognizer st') = trace (recognizer st) ++ [RecStart rec]
  /\ (forall text now outcome later w,
        App.timers_set
          (App.calls (App.handleVoiceConversation (voice r) text now outcome later w))
        = App.timers_set (App.calls w))
  /\ (forall w, App.run_callback (App.AfterSpeech (voice r)) w = w).
Proof.
  intros Hv Hrec Hl st'. subst st'. unfold handleVoiceToggle. rewrite Hv.
  unfold seq. cbn [cells recognizer on_recognizer setIsVoiceMode modify_cells
                   isVoiceMode].
  unfold startListening. rewrite Hrec, Hl.
  repeat apply conj; try reflexivity.
  - intros text now outcome later w. apply turn_without_voice_mode.
    unfold voice. simpl. exact Hv.
  - intros w. unfold App.run_callback, voice. simpl. now rewrite Hv.
Qed.

Lemma X16_toggle_registers_handler_of_its_render_witness :
  let r := page_render [] None in
  let st' := handleVoiceToggle r (page_state [] None) in
  isVoiceMode (page r) = false
  /\ isVoiceMode (cells st') = true
  /\ onSpeechEndRef (recognizer st') = Some (voice r)
  /\ App.timers_set
       (App.calls (App.handleVoiceConversation (voice r) Demo.merhaba 1
                     (App.Throws App.OtherError) 2 Demo.voice_world))
     = [].
Proof.
  intros r.
  destruct (@X16_toggle_registers_handler_of_its_render r 1%positive
              (page_state [] None) eq_refl eq_refl eq_refl)
    as (Hv & Hcb & _ & Hturn & _).
  split; [reflexivity|]. split; [exact Hv|]. split; [exact Hcb|].
  rewrite Hturn. reflexivity.
Defined.

(** X17. [handleVoiceToggle] turns voice mode off by asking the recognizer
    in the ref to stop (when its render is listening), cancelling the
    silence countdown and stopping speech. It does not unregister the turn
    handler: the callback stored in the hook is the same afterwards. *)
Theorem X17_toggle_off_keeps_handler_registered
  (r : Render) (rec : RecognitionId) (st : State) :
  isVoiceMode (page r) = true ->
  one_timer (recognizer st) ->
  recognitionRef (recognizer st) = Some rec ->
  let st' := handleVoiceToggle r st in
  isVoiceMode (cells st') = false
  /\ calls st' = calls st ++ [StopSpeaking]
  /\ stops (trace (recognizer st'))
     = stops (trace (recognizer st)) ++ (if isListening (speech r) then [rec] else [])
  /\ timers (recognizer st') = []
  /\ onSpeechEndRef (recognizer st') = onSpeechEndRef (recognizer st).
Proof.
  intros Hv W Hrec st'. subst st'. unfold handleVoiceToggle. rewrite Hv.
  unfold seq. cbn [cells recognizer calls on_recognizer call setIsVoiceMode
                   modify_cells isVoiceMode].
  destruct (stopListening_stops_and_timers (speech r) W Hrec) as (Hs & Ht).
  repeat apply conj; try reflexivity; [exact Hs | exact Ht |].
  apply stopListening_callback.
Qed.

Lemma X17_toggle_off_keeps_handler_registered_witness :
  let r0 := page_render [] None in
  let cells_on :=
    {| messages := []; input := []; isLoading := false; attachment := None;
       mode := App.chat; sources := []; showSources := false; autoSpeak := true;
       isVoiceMode := true |} in
  let r := {| page := cells_on; speech := Demo.heard_render; isSpeaking := false |} in
  let st := {| cells := cells_on;
               recognizer :=
                 react_run [StartListening Demo.idle_render (Some (voice r0)); OnStart;
                            OnResult mount_handlers Demo.merhaba_event]
                           Demo.ready;
               calls := [] |} in
  let st' := handleVoiceToggle r st in
  isVoiceMode (page r) = true
  /\ one_timer (recognizer st)
  /\ state (recognizer st) = speech r
  /\ isVoiceMode (cells st') = false
  /\ stops (trace (recognizer st')) = [3%positive]
  /\ onSpeechEndRef (recognizer st') = Some (voice r0).
Proof.
  intros r0 cells_on r st.
  assert (W : one_timer (recognizer st)).
  { apply one_timer_react_run. intros t []. }
  destruct (@X17_toggle_off_keeps_handler_registered r 3%positive st eq_refl W eq_refl)
    as (Hv & _ & Hs & _ & Hcb).
  split; [reflexivity|]. split; [exact W|]. split; [reflexivity|].
  split; [exact Hv|]. split; [rewrite Hs; reflexivity|].
  rewrite Hcb. reflexivity.
Defined.

(** X18. [handleFileChange] changes the attachment only when a file was
    chosen, its type starts with ["image/"] and the read completes; the
    attachment then carries the file's name, its type and the data read.
    A file of another type is answered with an alert and is not read. *)
Theorem X18_only_images_are_attached
  (file : option File) (reading : Reading) (st : State) :
  let st' := handleFileChange file reading st in
  (attachment (cells st') <> attachment (cells st) ->
   exists f content,
     file = Some f
     /\ startsWith (file_type f) (lit "image/") = true
     /\ reading = Loaded content
     /\ attachment (cells st')
        = Some {| name := file_name f; mime := file_type f;
                  contentString := content |})
  /\ (forall f,
        file = Some f ->
        startsWith (file_type f) (lit "image/") = false ->
        st' = call (Alert onlyImagesAlert) st)
  /\ (file = None -> st' = st).
Proof.
  intros st'. subst st'. repeat apply conj.
  - unfold handleFileChange. destruct file as [f|]; [|intros H; now destruct H].
    destruct (startsWith (file_type f) (lit "image/")) eqn:E; simpl;
      [|intros H; now destruct H].
    destruct reading as [content| |]; simpl; try (intros H; now destruct H).
    intros _. exists f, content. auto.
  - intros f -> E. unfold handleFileChange. now rewrite E.
  - intros ->. reflexivity.
Qed.

Lemma X18_only_images_are_attached_witness :
  let pdf := {| file_name := lit "a.pdf"; file_type := lit "application/pdf" |} in
  let png := {| file_name := lit "a.png"; file_type := lit "image/png" |} in
  handleFileChange (Some pdf) (Loaded (lit "data:")) (page_state [] None)
  = call (Alert onlyImagesAlert) (page_state [] None)
  /\ attachment (cells (handleFileChange (Some png) (Loaded (lit "data:"))
                          (page_state [] None)))
     = Some {| name := lit "a.png"; mime := lit "image/png";
               contentString := lit "data:" |}.
Proof.
  intros pdf png. split.
  - destruct (X18_only_images_are_attached (Some pdf) (Loaded (lit "data:"))
                (page_state [] None)) as (_ & H & _).
    apply (H pdf); reflexivity.
  - destruct (X18_only_images_are_attached (Some png) (Loaded (lit "data:"))
                (page_state [] None)) as (H & _ & _).
    destruct H as (f & content & Hf & _ & Hr & Ha); [discriminate|].
    injection Hf as <-. injection Hr as <-. exact Ha.
Defined.

(** X23. The manual microphone button acts on the recognizer only. In a
    listening render it asks the recognizer to stop and starts nothing. In
    an idle render it starts a session with no callback, which replaces
    whatever turn handler an earlier voice session had registered and
    empties the transcript, so that nothing dictated afterwards is sent as
    a turn: no callback is invoked by any events that follow. *)
Theorem X23_microphone_button
  (r : Render) (rec : RecognitionId) (st : State) :
  recognitionRef (recognizer st) = Some rec ->
  let st' := micButton r st in
  cells st' = cells st
  /\ calls st' = calls st
  /\ recognizer_calls (trace (recognizer st'))
     = recognizer_calls (trace (recognizer st))
       ++ [if isListening (speech r) then RecStop rec else RecStart rec]
  /\ (isListening (speech r) = false ->
      onSpeechEndRef (recognizer st') = None
      /\ exposedTranscript (state (recognizer st')) = []
      /\ forall es,
           forallb (fun e => negb (is_startListening e)) es = true ->
           callback_calls (trace (run es (recognizer st')))
           = callback_calls (trace (recognizer st))).
Proof.
  intros Hrec st'. subst st'. unfold micButton.
  destruct (isListening (speech r)) eqn:Hl;
    cbn [on_recognizer cells calls recognizer].
  - repeat apply conj; try reflexivity; [|discriminate].
    rewrite (stopListening_recognizer_calls (speech r) (recognizer st) Hrec).
    now rewrite Hl.
  - assert (Hs : startListening (speech r) None (recognizer st)
                 = emit (RecStart rec)
                     (setFinalTranscript []
                        (setTranscript []
                           (set_onSpeechEndRef None (recognizer st))))).
    { unfold startListening. now rewrite Hrec, Hl. }
    repeat apply conj; try reflexivity.
    + rewrite Hs. cbn [trace emit]. rewrite recognizer_calls_app. reflexivity.
    + intros _. repeat apply conj.
      * now rewrite Hs.
      * now rewrite Hs.
      * intros es Hes.
        assert (Hn : onSpeechEndRef (startListening (speech r) None (recognizer st))
                     = None) by now rewrite Hs.
        destruct (run_no_callback es _ Hn Hes) as [Hc _].
        rewrite Hc, Hs. cbn [trace emit]. rewrite callback_calls_app. simpl.
        now rewrite app_nil_r.
Qed.

Lemma X23_microphone_button_witness :
  let r := page_render [] None in
  let st := handleVoiceToggle r (page_state [] None) in
  let st' := micButton r st in
  recognitionRef (recognizer st) = Some 1%positive
  /\ onSpeechEndRef (recognizer st) = Some (voice r)
  /\ onSpeechEndRef (recognizer st') = None
  /\ callback_calls
       (trace (run [OnStart; OnResult Demo.listening_handlers Demo.merhaba_event;
                    OnEnd Demo.heard_handlers] (recognizer st')))
     = [].
Proof.
  intros r st.
  destruct (@X23_microphone_button r 1%positive st eq_refl)
    as (_ & _ & _ & H).
  destruct (H eq_refl) as (Hn & _ & Hc).
  split; [reflexivity|]. split; [reflexivity|]. split; [exact Hn|].
  rewrite Hc; reflexivity.
Defined.

End PageFacts.

Section Dictation.

Import App.

Lemma exposed_empty (r : Snapshot) :
  exposedTranscript r = [] <-> finalTranscript r = [] /\ transcript r = [].
Proof.
  unfold exposedTranscript. split.
  - apply app_eq_nil.
  - intros [-> ->]. reflexivity.
Qed.

Lemma truthy_empty (t : jsstring) : truthy t = false -> t = [].
Proof. destruct t; [reflexivity | discriminate]. Qed.

(** One result event and the render after it, in manual mode, starting
    from an empty transcript. *)
Lemma dictate_step_manual h event w :
  isVoiceMode (cells w) = false ->
  exposedTranscript (state (recognizer w)) = [] ->
  let w' := rerender (deliver_result h event w) in
  isVoiceMode (cells w') = false
  /\ exposedTranscript (state (recognizer w')) = []
  /\ input (cells w')
     = (if truthy (event_text event) then event_text event else input (cells w))
  /\ input_writes (calls w')
     = input_writes (calls w)
       ++ (if truthy (event_text event) then [event_text event] else []).
Proof.
  intros Hv He w'. apply exposed_empty in He as [Hf Ht].
  assert (Hx : exposedTranscript (state (recognizer (deliver_result h event w)))
               = event_text event).
  { unfold deliver_result, on_recognizer, exposedTranscript. cbn [recognizer].
    rewrite onresult_state. cbn [finalTranscript transcript]. now rewrite Hf. }
  subst w'. unfold rerender, transcriptEffect.
  cbn [render_of app speech]. rewrite Hx.
  change (cells (deliver_result h event w)) with (cells w). rewrite Hv.
  destruct (truthy (event_text event)) eqn:E; simpl.
  - repeat apply conj; try reflexivity; [exact Hv|].
    rewrite input_writes_app. reflexivity.
  - rewrite Hv, app_nil_r. repeat apply conj; try reflexivity.
    rewrite onresult_state. unfold exposedTranscript. cbn [finalTranscript transcript].
    rewrite Hf. apply truthy_empty in E. exact E.
Qed.

Lemma last_text_step p evs d :
  last_text (p :: evs) d
  = last_text evs (if truthy (event_text (snd p)) then event_text (snd p) else d).
Proof. reflexivity. Qed.

End Dictation.

(** X19. Manual dictation overwrites the input field. With voice mode off
    and the transcript empty at the start, after any sequence of result
    events, each followed by a render, the input field holds the text of
    the last event that had any (its final part followed by its interim
    part), not the concatenation of what was recognized, and the hook's
    transcript is empty again; the input field was written once per event
    that had text. *)
Theorem X19_manual_dictation_overwrites_input
  (evs : list (Handlers * SpeechRecognitionEvent)) (w : App.World) :
  App.isVoiceMode (App.cells w) = false ->
  exposedTranscript (state (App.recognizer w)) = [] ->
  let w' := dictate evs w in
  App.input (App.cells w') = last_text evs (App.input (App.cells w))
  /\ exposedTranscript (state (App.recognizer w')) = []
  /\ App.input_writes (App.calls w')
     = App.input_writes (App.calls w)
       ++ filter truthy (map (fun p => event_text (snd p)) evs).
Proof.
  revert w. induction evs as [|[h e] evs IH]; intros w Hv He w'.
  - subst w'. simpl. rewrite app_nil_r. auto.
  - destruct (dictate_step_manual h e w Hv He) as (Hv1 & He1 & Hi1 & Hw1).
    destruct (IH _ Hv1 He1) as (Hi & Hx & Hw).
    subst w'.
    change (dictate ((h, e) :: evs) w)
      with (dictate evs (App.rerender (App.deliver_result h e w))).
    rewrite Hi, Hw, Hi1, Hw1, last_text_step. cbn [snd map filter].
    repeat apply conj; [reflexivity | exact Hx |].
    rewrite <- app_assoc. destruct (truthy (event_text e)); reflexivity.
Qed.

Lemma X19_manual_dictation_overwrites_input_witness :
  let evs := [(Demo.listening_handlers, Demo.merhaba_event);
              (Demo.listening_handlers, Demo.test_mesaji_event)] in
  let w' := dictate evs Demo.manual_world in
  App.isVoiceMode (App.cells Demo.manual_world) = false
  /\ exposedTranscript (state (App.recognizer Demo.manual_world)) = []
  /\ App.input (App.cells w') = Demo.test_mesaji
  /\ App.input_writes (App.calls w') = [Demo.merhaba; Demo.test_mesaji].
Proof.
  intros evs.
  destruct (@X19_manual_dictation_overwrites_input evs Demo.manual_world
              eq_refl eq_refl) as (Hi & _ & Hw).
  split; [reflexivity|]. split; [reflexivity|].
  split; [rewrite Hi; reflexivity | rewrite Hw; reflexivity].
Defined.

Section VoiceTurns.

Import App.

(** In voice mode the transcript effect leaves everything alone, so a
    dictation only drives the hook. *)
Lemma dictate_voice evs w :
  isVoiceMode (cells w) = true ->
  dictate evs w
  = {| cells := cells w;
       recognizer := run (result_events Render evs) (recognizer w);
       calls := calls w |}.
Proof.
  revert w. induction evs as [|[h e] evs IH]; intros w Hv.
  - now destruct w.
  - change (dictate ((h, e) :: evs) w)
      with (dictate evs (rerender (deliver_result h e w))).
    assert (Hr : rerender (deliver_result h e w) = deliver_result h e w).
    { unfold rerender, transcriptEffect. cbn [render_of app speech].
      change (cells (deliver_result h e w)) with (cells w). rewrite Hv.
      now rewrite andb_false_r. }
    rewrite Hr, IH; [reflexivity | exact Hv].
Qed.

Lemma voice_requests_app (a b : list Call) :
  voice_requests (a ++ b) = voice_requests a ++ voice_requests b.
Proof. apply flat_map_app. Qed.

End VoiceTurns.

(** X20. In voice mode the recognized text never reaches the input field:
    after any sequence of result events, each followed by a render, the
    cells of the component and its calls are unchanged, while the hook's
    committed transcript has grown by the final segments of the events and
    its interim transcript is the non-final part of the last event. *)
Theorem X20_voice_mode_keeps_input
  (evs : list (Handlers * SpeechRecognitionEvent)) (w : App.World) :
  App.isVoiceMode (App.cells w) = true ->
  let w' := dictate evs w in
  App.cells w' = App.cells w
  /\ App.calls w' = App.calls w
  /\ finalTranscript (state (App.recognizer w'))
     = finalTranscript (state (App.recognizer w))
       ++ concat (map (fun p => final_text (snd p)) evs)
  /\ transcript (state (App.recognizer w'))
     = last (map (fun p => interim_text (snd p)) evs)
            (transcript (state (App.recognizer w))).
Proof.
  intros Hv w'. subst w'. rewrite (dictate_voice evs w Hv).
  cbn [App.cells App.calls App.recognizer].
  destruct (run_results_state evs (App.recognizer w)) as [Hf Ht].
  auto.
Qed.

Lemma X20_voice_mode_keeps_input_witness :
  let evs := [(Demo.listening_handlers, Demo.merhaba_event);
              (Demo.listening_handlers, Demo.test_mesaji_event)] in
  let w' := dictate evs Demo.voice_world in
  App.isVoiceMode (App.cells Demo.voice_world) = true
  /\ App.input (App.cells w') = []
  /\ finalTranscript (state (App.recognizer w')) = Demo.merhaba ++ Demo.test_mesaji.
Proof.
  intros evs.
  destruct (@X20_voice_mode_keeps_input evs Demo.voice_world eq_refl)
    as (Hc & _ & Hf & _).
  split; [reflexivity|]. split; [rewrite Hc; reflexivity|].
  rewrite Hf. reflexivity.
Defined.

(** X21. Every hands-free turn with text other than whitespace has the
    same shape whatever the backend does: the user's message and then one
    bot message are appended, exactly one request is sent, carrying the
    text as spoken and the mode of the turn's render, and the loading flag
    ends cleared. The turn itself touches neither the input field, nor
    voice mode, nor the recognizer. *)
Theorem X21_turn_shape
  (r : App.Render) (text : jsstring) (now : N) (outcome : App.Outcome)
  (later : N) (w : App.World) :
  trim text <> [] ->
  let w' := App.handleVoiceConversation r text now outcome later w in
  (exists answer,
      App.messages (App.cells w')
      = App.messages (App.cells w)
        ++ [{| App.id := App.IdOfClock now; App.type := App.user;
               App.message := text; App.timestamp := now |}; answer]
      /\ App.type answer = App.bot)
  /\ voice_requests (App.calls w')
     = voice_requests (App.calls w) ++ [(text, App.mode (App.app r))]
  /\ App.isLoading (App.cells w') = false
  /\ App.input (App.cells w') = App.input (App.cells w)
  /\ App.isVoiceMode (App.cells w') = App.isVoiceMode (App.cells w)
  /\ App.recognizer w' = App.recognizer w.
Proof.
  intros Ht w'. subst w'. unfold App.handleVoiceConversation.
  rewrite (truthy_true Ht). unfold App.seq, App.when, App.skip.
  destruct outcome as [data|error]; simpl.
  - destruct (App.response_sources data) as [[|src l]|],
      (truthy (App.textResponse data)); simpl;
      (split; [eexists; split; [rewrite <- app_assoc; reflexivity | reflexivity]|]);
      rewrite <- ?app_assoc, ?voice_requests_app; simpl; rewrite ?app_nil_r;
      repeat apply conj; reflexivity.
  - destruct (App.isVoiceMode (App.app r)); simpl;
      (split; [eexists; split; [rewrite <- app_assoc; reflexivity | reflexivity]|]);
      rewrite <- ?app_assoc, ?voice_requests_app; simpl; rewrite ?app_nil_r;
      repeat apply conj; reflexivity.
Qed.

Lemma X21_turn_shape_witness :
  let w' := App.handleVoiceConversation Demo.voice_render (lit " merhaba ") 1
              (App.Resolves Demo.selam) 2 Demo.voice_world in
  trim (lit " merhaba ") <> []
  /\ voice_requests (App.calls w') = [(lit " merhaba ", App.chat)]
  /\ App.isLoading (App.cells w') = false.
Proof.
  assert (T : trim (lit " merhaba ") <> []) by discriminate.
  destruct (@X21_turn_shape Demo.voice_render (lit " merhaba ") 1
              (App.Resolves Demo.selam) 2 Demo.voice_world T)
    as (_ & Hr & Hl & _).
  split; [exact T|]. split; [rewrite Hr; reflexivity | exact Hl].
Defined.

(** X22. When the backend answers a hands-free turn with an empty text,
    a bot message with empty text is appended, [speak] is not called and
    no timer is set, even in a render with voice mode on: nothing is left
    that would start listening again. *)
Theorem X22_empty_answer_ends_the_loop
  (r : App.Render) (text : jsstring) (now : N) (data : App.ChatResponse)
  (later : N) (w : App.World) :
  trim text <> [] ->
  App.textResponse data = [] ->
  let w' := App.handleVoiceConversation r text now (App.Resolves data) later w in
  App.calls w'
  = App.calls w
    ++ [App.StopSpeaking;
        App.SendChatMessage text (App.mode (App.app r)) App.sessionId]
  /\ App.spoken (App.calls w') = App.spoken (App.calls w)
  /\ App.timers_set (App.calls w') = App.timers_set (App.calls w)
  /\ map App.message (App.messages (App.cells w'))
     = map App.message (App.messages (App.cells w)) ++ [text; []].
Proof.
  intros Ht Hd w'.
  assert (Hc : App.calls w'
               = App.calls w
                 ++ [App.StopSpeaking;
                     App.SendChatMessage text (App.mode (App.app r)) App.sessionId]).
  { subst w'. rewrite answered_turn_calls by exact Ht. rewrite Hd. reflexivity. }
  repeat apply conj.
  - exact Hc.
  - rewrite Hc, spoken_app. simpl. now rewrite app_nil_r.
  - rewrite Hc, timers_set_app. simpl. now rewrite app_nil_r.
  - subst w'. unfold App.handleVoiceConversation. rewrite (truthy_true Ht).
    unfold App.seq, App.when, App.skip. rewrite Hd. simpl.
    destruct (App.response_sources data) as [[|src l]|]; simpl;
      rewrite <- app_assoc, map_app; reflexivity.
Qed.

Lemma X22_empty_answer_ends_the_loop_witness :
  let silent := {| App.response_id := None; App.textResponse := [];
                   App.response_sources := None |} in
  let w' := App.handleVoiceConversation Demo.voice_render Demo.merhaba 1
              (App.Resolves silent) 2 Demo.voice_world in
  trim Demo.merhaba <> []
  /\ App.isVoiceMode (App.app Demo.voice_render) = true
  /\ App.spoken (App.calls w') = []
  /\ App.timers_set (App.calls w') = [].
Proof.
  intros silent.
  assert (T : trim Demo.merhaba <> []) by discriminate.
  destruct (@X22_empty_answer_ends_the_loop Demo.voice_render Demo.merhaba 1
              silent 2 Demo.voice_world T eq_refl) as (_ & Hs & Htm & _).
  split; [exact T|]. split; [reflexivity|].
  split; [rewrite Hs; reflexivity | rewrite Htm; reflexivity].
Defined.

(** * The hook and the page under React *)

(** C3, on the code. The first run of the effect installs on recognizer 1
    handlers whose closure has [isListening = false]. [startListening]
    starts that recognizer and its start event puts the hook in the
    listening state. A result event received by these handlers arms the
    silence timer, but however long the silence lasts afterwards the timer
    callback tells no recognizer to stop: it tests the [isListening] of the
    closure, not the listening state. This holds with and without the
    commits React makes after each event. *)
Theorem C3_silence_timer_never_stops
  (Cb : Type) (cb : option Cb) (event : SpeechRecognitionEvent) (d : N) :
  let installed := effect true (state (@mounted Cb)) (@mounted Cb) in
  let start := [StartListening (state (fst installed)) cb; OnStart] in
  let listening := run start (fst installed) in
  let listening' := react_run start (fst installed) in
  snd installed = Some mount_handlers
  /\ recognizer_calls (trace listening) = [RecStart 1%positive]
  /\ isListening (state listening) = true
  /\ isListening (state listening') = true
  /\ timers (onresult mount_handlers event listening)
     = [{| timer_id := 1%positive; due := 2000; timer_env := mount_handlers |}]
  /\ stops (trace (elapse d (onresult mount_handlers event listening))) = []
  /\ stops (trace (elapse d (react (OnResult mount_handlers event) listening'))) = [].
Proof.
  intros installed start listening listening'.
  assert (W : one_timer listening).
  { apply one_timer_run, one_timer_effect, one_timer_mounted. }
  assert (W' : one_timer listening').
  { apply one_timer_react_run, one_timer_effect, one_timer_mounted. }
  repeat apply conj; try reflexivity.
  - destruct (onresult_timers mount_handlers event W) as (Ht & _). exact Ht.
  - now rewrite idle_closure_never_stops.
  - now rewrite idle_closure_never_stops_react.
Qed.

(** ** The stored callback over a session *)

Section Sessions.

Variable Cb : Type.
Implicit Types (s : Sys Cb) (h : Handlers) (e : Event Cb).

Lemma run_snoc (es : list (Event Cb)) e s : run (es ++ [e]) s = step e (run es s).
Proof. unfold run. now rewrite fold_left_app. Qed.

Lemma react_run_snoc (es : list (Event Cb)) e s :
  react_run (es ++ [e]) s = react e (react_run es s).
Proof. unfold react_run. now rewrite fold_left_app. Qed.

(** The commit after an event invokes nothing and leaves the ref alone. *)
Lemma react_calls e s :
  callback_calls (trace (react e s)) = callback_calls (trace (step e s))
  /\ onSpeechEndRef (react e s) = onSpeechEndRef (step e s).
Proof.
  unfold react.
  destruct (commit_keeps true (state s) (step e s)) as (_ & _ & _ & Hr & Hc & _).
  now split.
Qed.

(** Events other than the recognizer's end event invoke nothing. *)
Lemma run_without_end (es : list (Event Cb)) s :
  end_events es = 0 ->
  callback_calls (trace (run es s)) = callback_calls (trace s)
  /\ callback_calls (trace (react_run es s)) = callback_calls (trace s).
Proof.
  revert s. induction es as [|e es IH]; intros s He; [now split|].
  assert (He' : end_events es = 0 /\ match e with OnEnd _ => False | _ => True end).
  { unfold end_events in *. simpl in He. destruct e; simpl in He; auto; lia. }
  destruct He' as [He' Hne].
  assert (Hstep : callback_calls (trace (step e s)) = callback_calls (trace s)).
  { destruct (step_calls e s) as [delta [Hd Hl]].
    destruct e; try contradiction; destruct delta; simpl in Hl; try lia;
      now rewrite app_nil_r in Hd. }
  split.
  - change (run (e :: es) s) with (run es (step e s)).
    destruct (IH (step e s) He') as [-> _]. exact Hstep.
  - change (react_run (e :: es) s) with (react_run es (react e s)).
    destruct (IH (react e s) He') as [_ ->].
    destruct (react_calls e s) as [-> _]. exact Hstep.
Qed.

(** The end handler invokes the callback at most once. *)
Lemma onend_at_most_once h s :
  length (callback_calls (trace (onend h s))) <= length (callback_calls (trace s)) + 1.
Proof.
  destruct (step_calls (OnEnd h) s) as [delta [Hd Hl]]. cbn [step] in Hd.
  rewrite Hd, length_app. lia.
Qed.

End Sessions.

(** C2, as the code has it. On the hook as mounted a session is started
    with callback [7] and the recognizer reports its start; the caller then
    stops listening from outside, and the recognizer that was started
    ends. The callback is still stored after the stop and after the end
    event. The same holds after an invocation: in a second session, started
    with callback [8] while ["merhaba"] of a first session is still
    committed, the end handler of the recognizer that was started invokes
    the callback, at a moment when the committed transcript is empty, and
    the callback is still stored afterwards. *)
Lemma C2_callback_stays_registered_after_stop :
  let s0 := @Demo.ready nat in
  let session := react_run [StartListening (state s0) (Some 7); OnStart] s0 in
  let stopped := react (StopListening (state session)) session in
  let ended := react (OnEnd mount_handlers) stopped in
  let idle := react (OnEnd mount_handlers) first_session_heard in
  let h4 := {| render := state idle; recognition := 4%positive |} in
  let second := react (StartListening (state idle) (Some 8)) idle in
  let invoked := react (OnEnd h4) second in
  snd (effect true (state (@mounted nat)) (@mounted nat)) = Some mount_handlers
  /\ onSpeechEndRef session = Some 7
  /\ isListening (state session) = true
  /\ stops (trace stopped) = [2%positive]
  /\ onSpeechEndRef stopped = Some 7
  /\ isListening (state ended) = false
  /\ onSpeechEndRef ended = Some 7
  /\ commit_handlers true (state first_session_heard)
       (step (OnEnd mount_handlers) first_session_heard) = Some h4
  /\ recognizer_calls (trace second)
     = recognizer_calls (trace idle) ++ [RecStart 4%positive; RecAbort 4%positive]
  /\ finalTranscript (state second) = []
  /\ callback_calls (trace second) = []
  /\ callback_calls (trace invoked) = [(8, Demo.merhaba)]
  /\ onSpeechEndRef invoked = Some 8.
Proof. vm_compute. repeat split. Qed.

(** C2, amended. Take the events of a session up to its end event, with or
    without the commits React makes in between: before the end event the
    callback is not invoked, and with the end event it is invoked at most
    once. The stored callback is cleared neither by the end handler,
    whether it invokes the callback or not, nor by [stopListening]; no
    event other than [startListening] changes it, and a [startListening]
    that takes effect replaces it by its argument. *)
Theorem C2_callback_once_and_stays_registered (Cb : Type) :
  (forall (es : list (Event Cb)) h (s : Sys Cb),
      end_events es = 0 ->
      callback_calls (trace (run es s)) = callback_calls (trace s)
      /\ length (callback_calls (trace (run (es ++ [OnEnd h]) s)))
         <= length (callback_calls (trace s)) + 1)
  /\ (forall (es : list (Event Cb)) h (s : Sys Cb),
         end_events es = 0 ->
         callback_calls (trace (react_run es s)) = callback_calls (trace s)
         /\ length (callback_calls (trace (react_run (es ++ [OnEnd h]) s)))
            <= length (callback_calls (trace s)) + 1)
  /\ (forall h (s : Sys Cb), onSpeechEndRef (onend h s) = onSpeechEndRef s)
  /\ (forall r (s : Sys Cb), onSpeechEndRef (stopListening r s) = onSpeechEndRef s)
  /\ (forall (e : Event Cb) (s : Sys Cb),
         (forall r cb, e <> StartListening r cb) ->
         onSpeechEndRef (step e s) = onSpeechEndRef s
         /\ onSpeechEndRef (react e s) = onSpeechEndRef s)
  /\ (forall r cb (s : Sys Cb),
         recognitionRef s <> None -> isListening r = false ->
         onSpeechEndRef (startListening r cb s) = cb).
Proof.
  repeat apply conj.
  - intros es h s He. destruct (run_without_end es s He) as [H _].
    split; [exact H|]. rewrite run_snoc. cbn [step].
    rewrite <- H. apply onend_at_most_once.
  - intros es h s He. destruct (run_without_end es s He) as [_ H].
    split; [exact H|]. rewrite react_run_snoc.
    destruct (react_calls (OnEnd h) (react_run es s)) as [-> _]. cbn [step].
    rewrite <- H. apply onend_at_most_once.
  - apply onend_callback.
  - apply stopListening_callback.
  - intros e s Hne. destruct (react_calls e s) as [_ ->].
    split; now apply step_callback.
  - intros r cb s Hrec Hl. unfold startListening.
    destruct (recognitionRef s); [|contradiction]. now rewrite Hl.
Qed.

Lemma C2_callback_once_and_stays_registered_witness :
  let s0 := @Demo.ready nat in
  let session := [StartListening (state s0) (Some 7); OnStart;
                  OnResult mount_handlers Demo.merhaba_event; Elapse 2000;
                  StopListening Demo.listening_render] in
  end_events session = 0
  /\ callback_calls (trace (react_run session s0)) = []
  /\ length (callback_calls
               (trace (react_run (session ++ [OnEnd mount_handlers]) s0))) <= 1
  /\ onSpeechEndRef (startListening (state s0) (Some 7) s0) = Some 7
  /\ onSpeechEndRef (react (OnEnd mount_handlers) (react_run session s0))
     = onSpeechEndRef (react_run session s0).
Proof.
  intros s0 session.
  destruct (@C2_callback_once_and_stays_registered nat)
    as (_ & Hreact & _ & _ & Hkeep & Hstart).
  assert (He : end_events session = 0) by reflexivity.
  destruct (Hreact session mount_handlers s0 He) as [Hnone Hone].
  split; [exact He|]. split; [exact Hnone|]. split; [exact Hone|]. split.
  - apply Hstart; [discriminate | reflexivity].
  - destruct (Hkeep (OnEnd mount_handlers) (react_run session s0)) as [_ H];
      [discriminate | exact H].
Defined.

(** ** Teardown *)




(** ** The turn handlers the page registers *)

(** Every registered turn handler belongs to a render with voice mode
    off: the toggle registers one only on that branch, and a handler
    registers itself again only behind its own flag. *)
Lemma registered_voice_off (v : App.Render) :
  registered v -> App.isVoiceMode (App.app v) = false.
Proof. induction 1 as [r Hv|v _ IH _]; [exact Hv | exact IH]. Qed.

(** C5, on the code. Voice mode is on and the backend call of a turn run
    by a registered handler throws. The user's message and a bot message
    with the error text are appended, nothing is spoken and the loading
    flag ends cleared; but no timer is set and the recognizer is left
    alone, so listening is not re-armed: the handler tests the
    [isVoiceMode] of the render that defined it, which is off. *)
Theorem C5_failed_turn_sets_no_timer
  (v : App.Render) (text : jsstring) (now : N) (error : App.Thrown) (later : N)
  (w : App.World) :
  registered v ->
  trim text <> [] ->
  App.isVoiceMode (App.cells w) = true ->
  let w' := App.handleVoiceConversation v text now (App.Throws error) later w in
  let errorMessage := match error with
                      | App.ChatApiError m => m
                      | App.OtherError => App.defaultErrorMessage
                      end in
  App.messages (App.cells w')
  = App.messages (App.cells w)
    ++ [{| App.id := App.IdOfClock now; App.type := App.user;
           App.message := text; App.timestamp := now |};
        {| App.id := App.IdOfClock later; App.type := App.bot;
           App.message := errorMessage; App.timestamp := later |}]
  /\ App.spoken (App.calls w') = App.spoken (App.calls w)
  /\ App.isLoading (App.cells w') = false
  /\ App.isVoiceMode (App.cells w') = true
  /\ App.timers_set (App.calls w') = App.timers_set (App.calls w)
  /\ App.recognizer w' = App.recognizer w.
Proof.
  intros Hreg Ht Hv w' errorMessage.
  assert (Hoff := registered_voice_off Hreg).
  assert (Hc := @failed_turn_calls v text now error later w Ht). fold w' in Hc.
  rewrite Hoff in Hc.
  repeat apply conj.
  - subst w'. unfold App.handleVoiceConversation. rewrite (truthy_true Ht).
    unfold App.seq, App.when, App.skip. simpl. rewrite Hoff. simpl.
    now rewrite <- app_assoc.
  - rewrite Hc, !spoken_app. simpl. now rewrite app_nil_r.
  - subst w'. unfold App.handleVoiceConversation. rewrite (truthy_true Ht).
    reflexivity.
  - subst w'. unfold App.handleVoiceConversation. rewrite (truthy_true Ht).
    unfold App.seq, App.when, App.skip. simpl. rewrite Hoff. exact Hv.
  - rewrite Hc, !timers_set_app. simpl. now rewrite app_nil_r.
  - subst w'. unfold App.handleVoiceConversation. rewrite (truthy_true Ht).
    unfold App.seq, App.when, App.skip. simpl. now rewrite Hoff.
Qed.

Lemma C5_failed_turn_sets_no_timer_witness :
  let r := page_render [] None in
  let st' := Page.handleVoiceToggle r (page_state [] None) in
  let w' := App.handleVoiceConversation (Page.voice r) Demo.merhaba 10
              (App.Throws App.OtherError) 20 Demo.voice_world in
  Page.isVoiceMode (Page.cells st') = true
  /\ onSpeechEndRef (Page.recognizer st') = Some (Page.voice r)
  /\ registered (Page.voice r)
  /\ trim Demo.merhaba <> []
  /\ App.isVoiceMode (App.cells Demo.voice_world) = true
  /\ map App.message (App.messages (App.cells w'))
     = [Demo.merhaba; App.defaultErrorMessage]
  /\ App.isVoiceMode (App.cells w') = true
  /\ App.timers_set (App.calls w') = []
  /\ trace (App.recognizer w') = [].
Proof.
  intros r st'.
  assert (Hreg : registered (Page.voice r)) by (apply by_toggle; reflexivity).
  assert (Ht : trim Demo.merhaba <> []) by discriminate.
  destruct (@C5_failed_turn_sets_no_timer (Page.voice r) Demo.merhaba 10
              App.OtherError 20 Demo.voice_world Hreg Ht eq_refl)
    as (Hm & _ & _ & Hv & Hts & Hrec).
  split; [reflexivity|]. split; [reflexivity|]. split; [exact Hreg|].
  split; [exact Ht|]. split; [reflexivity|].
  split; [rewrite Hm; reflexivity|]. split; [exact Hv|].
  split; [rewrite Hts; reflexivity | rewrite Hrec; reflexivity].
Defined.

(** C6, on the code. The backend call of a turn run by a registered
    handler returns a non-empty text: the handler calls [speak] with that
    text and a completion callback. When the speech completes, that
    callback does nothing, whatever the state then is and so also with
    voice mode on: no timer is set and [startListening] is not called. It
    tests the [isVoiceMode] of the render that defined the handler. *)
Theorem C6_answered_turn_does_not_listen_again
  (v : App.Render) (text : jsstring) (now : N) (data : App.ChatResponse)
  (later : N) (w : App.World) :
  registered v ->
  trim text <> [] ->
  App.textResponse data <> [] ->
  App.isVoiceMode (App.cells w) = true ->
  let w' := App.handleVoiceConversation v text now (App.Resolves data) later w in
  App.calls w'
  = App.calls w
    ++ [App.StopSpeaking;
        App.SendChatMessage text (App.mode (App.app v)) App.sessionId;
        App.Speak (App.textResponse data) (Some (App.AfterSpeech v))]
  /\ App.isVoiceMode (App.cells w') = true
  /\ App.run_callback (App.AfterSpeech v) w' = w'
  /\ (forall w2, App.run_callback (App.AfterSpeech v) w2 = w2).
Proof.
  intros Hreg Ht Hd Hv w'.
  assert (Hoff := registered_voice_off Hreg).
  assert (Hdone : forall w2, App.run_callback (App.AfterSpeech v) w2 = w2).
  { intros w2. unfold App.run_callback. now rewrite Hoff. }
  repeat apply conj.
  - subst w'. rewrite answered_turn_calls by exact Ht. now rewrite (truthy_true Hd).
  - subst w'. unfold App.handleVoiceConversation. rewrite (truthy_true Ht).
    unfold App.seq, App.when, App.skip. simpl.
    destruct (App.response_sources data) as [[|src l]|];
      rewrite (truthy_true Hd); exact Hv.
  - apply Hdone.
  - exact Hdone.
Qed.

Lemma C6_answered_turn_does_not_listen_again_witness :
  let r := page_render [] None in
  let st' := Page.handleVoiceToggle r (page_state [] None) in
  let w' := App.handleVoiceConversation (Page.voice r) Demo.merhaba 10
              (App.Resolves Demo.selam) 20 Demo.voice_world in
  let done := App.run_callback (App.AfterSpeech (Page.voice r)) w' in
  Page.isVoiceMode (Page.cells st') = true
  /\ onSpeechEndRef (Page.recognizer st') = Some (Page.voice r)
  /\ registered (Page.voice r)
  /\ trim Demo.merhaba <> []
  /\ App.textResponse Demo.selam <> []
  /\ App.isVoiceMode (App.cells Demo.voice_world) = true
  /\ App.spoken (App.calls w') = [lit "selam"]
  /\ App.isVoiceMode (App.cells done) = true
  /\ App.timers_set (App.calls done) = []
  /\ trace (App.recognizer done) = [].
Proof.
  intros r st' w' done.
  assert (Hreg : registered (Page.voice r)) by (apply by_toggle; reflexivity).
  assert (Ht : trim Demo.merhaba <> []) by discriminate.
  assert (Hd : App.textResponse Demo.selam <> []) by discriminate.
  destruct (@C6_answered_turn_does_not_listen_again (Page.voice r) Demo.merhaba
              10 Demo.selam 20 Demo.voice_world Hreg Ht Hd eq_refl)
    as (Hc & Hv & Hdone & _).
  fold w' in Hc, Hv, Hdone. subst done. rewrite Hdone.
  split; [reflexivity|]. split; [reflexivity|]. split; [exact Hreg|].
  split; [exact Ht|]. split; [exact Hd|]. split; [reflexivity|].
  split; [rewrite Hc; reflexivity|]. split; [exact Hv|].
  split; [rewrite Hc; reflexivity | reflexivity].
Defined.

(** ** The end of a session on the recognizer that was started *)

Section StartedRecognizer.

Variable Cb : Type.
Implicit Types (s : Sys Cb) (h : Handlers).

(** Result events and the commits after them: the committed text grows by
    the final text of each event; the listening flag and the stored
    callback stay, and no callback is invoked. *)
Lemma react_results h (evs : list SpeechRecognitionEvent) s :
  let s' := react_run (map (OnResult h) evs) s in
  finalTranscript (state s') = finalTranscript (state s) ++ concat (map final_text evs)
  /\ isListening (state s') = isListening (state s)
  /\ onSpeechEndRef s' = onSpeechEndRef s
  /\ callback_calls (trace s') = callback_calls (trace s).
Proof.
  revert s. induction evs as [|e evs IH]; intros s; cbn zeta.
  - simpl. now rewrite app_nil_r.
  - change (react_run (map (OnResult h) (e :: evs)) s)
      with (react_run (map (OnResult h) evs) (react (OnResult h e) s)).
    destruct (IH (react (OnResult h e) s)) as (Hf & Hl & Hr & Hc).
    rewrite Hf, Hl, Hr, Hc. clear IH Hf Hl Hr Hc.
    destruct (react_calls (OnResult h e) s) as (Hc & Hr).
    unfold react in *.
    destruct (commit_keeps true (state s) (step (OnResult h e) s))
      as (-> & _ & -> & _).
    rewrite Hc, Hr. cbn [step].
    rewrite onresult_state, onresult_callback. cbn [finalTranscript isListening].
    repeat apply conj; try reflexivity.
    + simpl. now rewrite app_assoc.
    + destruct (step_calls (OnResult h e) s) as [delta [Hd Hl]].
      cbn [step] in Hd. destruct delta; [|simpl in Hl; lia].
      now rewrite app_nil_r in Hd.
Qed.

(** The end handler of a closure that captured no committed text only
    clears the listening flag. *)
Lemma onend_empty_closure h s :
  finalTranscript (render h) = [] ->
  onend h s = setIsListening false s.
Proof. intros Hf. unfold onend, seq. now rewrite Hf. Qed.

End StartedRecognizer.

(** X24. The end handler tests the committed transcript of the render its
    effect ran for, not the one of the state. The handlers installed at
    mount are those of the recognizer the first [startListening] starts,
    and they captured an empty transcript: whatever text the result events
    of that session commit, its end event invokes no callback, leaves the
    committed text in place and keeps the callback stored. *)
Theorem X24_first_session_ends_without_callback
  (Cb : Type) (cb : Cb) (evs : list SpeechRecognitionEvent) :
  let installed := effect true (state (@mounted Cb)) (@mounted Cb) in
  let session := [StartListening (state (fst installed)) (Some cb); OnStart]
                 ++ map (OnResult mount_handlers) evs in
  let heard := react_run session (fst installed) in
  let ended := react (OnEnd mount_handlers) heard in
  snd installed = Some mount_handlers
  /\ finalTranscript (state heard) = concat (map final_text evs)
  /\ isListening (state heard) = true
  /\ onSpeechEndRef heard = Some cb
  /\ callback_calls (trace ended) = []
  /\ finalTranscript (state ended) = concat (map final_text evs)
  /\ isListening (state ended) = false
  /\ onSpeechEndRef ended = Some cb.
Proof.
  intros installed session heard ended.
  set (s2 := react_run [StartListening (state (fst installed)) (Some cb); OnStart]
               (fst installed)).
  assert (Hheard : heard = react_run (map (OnResult mount_handlers) evs) s2).
  { subst heard session s2. unfold react_run. now rewrite fold_left_app. }
  destruct (react_results mount_handlers evs s2) as (Hf & Hl & Hr & Hc).
  rewrite <- Hheard in Hf, Hl, Hr, Hc.
  change (finalTranscript (state s2)) with (@nil N) in Hf.
  change (isListening (state s2)) with true in Hl.
  change (onSpeechEndRef s2) with (Some cb) in Hr.
  change (callback_calls (trace s2)) with (@nil (Cb * jsstring)) in Hc.
  simpl in Hf.
  destruct (react_calls (OnEnd mount_handlers) heard) as (Hec & Her).
  assert (Hend : step (OnEnd mount_handlers) heard = setIsListening false heard).
  { apply onend_empty_closure. reflexivity. }
  subst ended. unfold react in *.
  destruct (commit_keeps true (state heard) (step (OnEnd mount_handlers) heard))
    as (Hkf & _ & Hkl & _).
  rewrite Hkf, Hkl, Hec, Her, Hend.
  cbn [setIsListening modify_state state trace onSpeechEndRef finalTranscript
       isListening].
  repeat apply conj; try reflexivity; assumption.
Qed.

(** ** A session started over committed text *)

Section Replay.

Variable Cb : Type.
Implicit Types (s : Sys Cb) (h : Handlers).

(** What a commit that runs the effect again installs and leaves. *)
Lemma commit_installs (prev : Snapshot) s h :
  one_timer s ->
  commit_handlers true prev s = Some h ->
  let s' := commit true prev s in
  h = {| render := state s; recognition := nextRecognition s |}
  /\ recognitionRef s' = Some (nextRecognition s)
  /\ timers s' = []
  /\ finalTranscript (state s') = finalTranscript (state s)
  /\ isListening (state s') = isListening (state s)
  /\ onSpeechEndRef s' = onSpeechEndRef s
  /\ callback_calls (trace s') = callback_calls (trace s).
Proof.
  intros W Hh s'. subst s'. unfold commit_handlers in Hh.
  destruct (commit_keeps true prev s) as (Hf & _ & Hl & Hr & Hc & _).
  rewrite Hf, Hl, Hr, Hc.
  destruct (same_deps prev (state s)) eqn:E; [discriminate|].
  rewrite (@commit_rerun_timers Cb prev s W E).
  unfold commit. rewrite E. unfold effect in *. cbn [fst snd recognitionRef] in *.
  change (nextRecognition (setIsSupported true (cleanup s)))
    with (nextRecognition (cleanup s)) in *.
  rewrite cleanup_nextRecognition in *.
  injection Hh as <-. repeat apply conj; reflexivity.
Qed.

(** [startListening] on a state with committed text, and the commit of the
    render it causes: the recognizer in the ref is started and at once
    aborted. *)
Lemma react_startListening_over_text (rec : RecognitionId) (cb : option Cb) s :
  recognitionRef s = Some rec ->
  timers s = [] ->
  isListening (state s) = false ->
  finalTranscript (state s) <> [] ->
  let s' := react (StartListening (state s) cb) s in
  recognizer_calls (trace s')
  = recognizer_calls (trace s) ++ [RecStart rec; RecAbort rec]
  /\ finalTranscript (state s') = []
  /\ isListening (state s') = false
  /\ onSpeechEndRef s' = cb
  /\ callback_calls (trace s') = callback_calls (trace s).
Proof.
  intros Hrec Ht Hl Hf s'. subst s'. unfold react. cbn [step].
  set (s1 := startListening (state s) cb s).
  assert (E1 : s1 = seq (set_onSpeechEndRef cb)
                       (seq (setTranscript [])
                          (seq (setFinalTranscript []) (emit (RecStart rec)))) s).
  { subst s1. unfold startListening. now rewrite Hrec, Hl. }
  destruct (commit_keeps true (state s) s1) as (-> & _ & -> & -> & -> & _).
  assert (Hd : same_deps (state s) (state s1) = false).
  { apply same_deps_false. right. rewrite E1. exact Hf. }
  unfold commit. rewrite Hd. unfold effect. cbn [fst trace setIsSupported modify_state].
  rewrite cleanup_trace, E1.
  cbn [seq emit set_onSpeechEndRef setTranscript setFinalTranscript updFinalTranscript
       modify_state recognitionRef silenceTimerRef trace state finalTranscript
       isListening onSpeechEndRef].
  unfold seq. cbn [emit set_onSpeechEndRef setTranscript setFinalTranscript
       updFinalTranscript modify_state recognitionRef silenceTimerRef trace state
       finalTranscript isListening onSpeechEndRef].
  rewrite Hrec, Hl, !recognizer_calls_app, !callback_calls_app.
  repeat apply conj; try reflexivity.
  - destruct (silenceTimerRef s); simpl; now rewrite <- ?app_assoc, ?app_nil_r.
  - simpl. now rewrite app_nil_r.
Qed.

End Replay.

(** X25. The handlers of a recognizer keep the committed text of the
    render their effect ran for. When the effect has run for an idle
    render with committed text and [startListening] is then called with a
    callback, the recognizer it starts is aborted by the commit of the
    reset transcript, and the end event of that recognizer invokes the
    callback with the old text, although the committed transcript of the
    new session is empty. *)
Theorem X25_session_over_committed_text
  (Cb : Type) (prev : Snapshot) (h : Handlers) (cb : Cb) (s0 : Sys Cb) :
  one_timer s0 ->
  commit_handlers true prev s0 = Some h ->
  isListening (state s0) = false ->
  finalTranscript (state s0) <> [] ->
  let s := commit true prev s0 in
  let started := react (StartListening (state s) (Some cb)) s in
  let ended := react (OnEnd h) started in
  recognitionRef s = Some (recognition h)
  /\ recognizer_calls (trace started)
     = recognizer_calls (trace s) ++ [RecStart (recognition h); RecAbort (recognition h)]
  /\ finalTranscript (state started) = []
  /\ callback_calls (trace ended)
     = callback_calls (trace s0) ++ [(cb, finalTranscript (state s0))]
  /\ onSpeechEndRef ended = Some cb.
Proof.
  intros W Hh Hl Hf s started ended.
  destruct (@commit_installs Cb prev s0 h W Hh) as (Eh & Hrec & Ht & Hf' & Hl' & _ & Hc').
  fold s in Hrec, Ht, Hf', Hl', Hc'.
  assert (Hrh : recognition h = nextRecognition s0) by now rewrite Eh.
  rewrite Hrh.
  rewrite <- Hf' in Hf. rewrite Hl in Hl'.
  destruct (@react_startListening_over_text Cb (nextRecognition s0) (Some cb) s Hrec Ht Hl' Hf)
    as (Hrc & Hsf & _ & Hcb & Hcc).
  fold started in Hrc, Hsf, Hcb, Hcc.
  split; [exact Hrec|]. split; [exact Hrc|]. split; [exact Hsf|].
  destruct (react_calls (OnEnd h) started) as (Hec & Her).
  fold ended in Hec, Her. rewrite Hec, Her. cbn [step].
  rewrite onend_calls, onend_callback, Hcb, callback_calls_app, Hcc, Hc'.
  assert (Hft : finalTranscript (render h) = finalTranscript (state s0))
    by now rewrite Eh.
  rewrite Hft, Hf' in *. rewrite (truthy_true Hf).
  split; reflexivity.
Qed.

Lemma X25_session_over_committed_text_witness :
  let idle := commit true (state first_session_heard) first_session_ended in
  let h4 := {| render := state first_session_ended; recognition := 4%positive |} in
  let started := react (StartListening (state idle) (Some 8)) idle in
  let ended := react (OnEnd h4) started in
  one_timer first_session_ended
  /\ commit_handlers true (state first_session_heard) first_session_ended = Some h4
  /\ finalTranscript (state first_session_ended) = Demo.merhaba
  /\ callback_calls (trace first_session_ended) = []
  /\ finalTranscript (state started) = []
  /\ callback_calls (trace ended) = [(8, Demo.merhaba)].
Proof.
  intros idle h4 started ended.
  assert (W : one_timer first_session_ended) by (intros t []).
  assert (Hh : commit_handlers true (state first_session_heard) first_session_ended
               = Some h4) by reflexivity.
  assert (Hf : finalTranscript (state first_session_ended) <> []) by discriminate.
  destruct (@X25_session_over_committed_text nat (state first_session_heard) h4 8
              first_session_ended W Hh eq_refl Hf)
    as (_ & _ & Hsf & Hc & _).
  split; [exact W|]. split; [exact Hh|]. split; [reflexivity|].
  split; [reflexivity|]. split; [exact Hsf | exact Hc].
Defined.

(** ** Silence on any recognizer that was started *)

(** X26. Whatever render the effect last ran for, when [startListening] of
    that render takes effect and starts the recognizer the effect
    installed, the handlers of that recognizer captured
    [isListening = false]. The silence timer they arm at a result event
    therefore never tells a recognizer to stop, in whatever state the
    event arrives and however long the silence lasts, with or without the
    commit after the event. *)
Theorem X26_started_recognizer_is_not_stopped_by_silence
  (Cb : Type) (prev : Snapshot) (h : Handlers) (cb : option Cb) (s0 : Sys Cb) :
  one_timer s0 ->
  commit_handlers true prev s0 = Some h ->
  let s := commit true prev s0 in
  let started := react (StartListening (state s) cb) s in
  recognizer_calls (trace started) <> recognizer_calls (trace s) ->
  isListening (render h) = false
  /\ (forall (event : SpeechRecognitionEvent) (d : N) (s' : Sys Cb),
        one_timer s' ->
        stops (trace (elapse d (onresult h event s'))) = stops (trace s')
        /\ stops (trace (elapse d (react (OnResult h event) s'))) = stops (trace s')).
Proof.
  intros W Hh s started Hstart.
  destruct (@commit_installs Cb prev s0 h W Hh) as (Eh & _ & _ & _ & Hl & _).
  fold s in Hl.
  assert (Hidle : isListening (render h) = false).
  { rewrite Eh. cbn [render]. rewrite <- Hl.
    destruct (isListening (state s)) eqn:E; [|reflexivity].
    exfalso. apply Hstart. subst started. unfold react. cbn [step].
    assert (Hsame : startListening (state s) cb s = s).
    { unfold startListening. rewrite E. now destruct (recognitionRef s). }
    rewrite Hsame. unfold commit.
    replace (same_deps (state s) (state s)) with true; [reflexivity|].
    symmetry. now apply same_deps_true. }
  split; [exact Hidle|].
  intros event d s' W'. split.
  - now apply idle_closure_never_stops.
  - now apply idle_closure_never_stops_react.
Qed.

Lemma X26_started_recognizer_is_not_stopped_by_silence_witness :
  let idle := commit true (state first_session_heard) first_session_ended in
  let h4 := {| render := state first_session_ended; recognition := 4%positive |} in
  let started := react (StartListening (state idle) (Some 8)) idle in
  one_timer first_session_ended
  /\ commit_handlers true (state first_session_heard) first_session_ended = Some h4
  /\ recognizer_calls (trace started) <> recognizer_calls (trace idle)
  /\ stops (trace (elapse 2000 (onresult h4 Demo.test_mesaji_event started)))
     = stops (trace started).
Proof.
  intros idle h4 started.
  assert (W : one_timer first_session_ended) by (intros t []).
  assert (Hh : commit_handlers true (state first_session_heard) first_session_ended
               = Some h4) by reflexivity.
  assert (Hs : recognizer_calls (trace started) <> recognizer_calls (trace idle))
    by discriminate.
  assert (W' : one_timer started) by (intros t []).
  destruct (@X26_started_recognizer_is_not_stopped_by_silence nat
              (state first_session_heard) h4 (Some 8) first_session_ended W Hh Hs)
    as (_ & Hq).
  destruct (Hq Demo.test_mesaji_event 2000%N started W') as (Hq1 & _).
  split; [exact W|]. split; [exact Hh|]. split; [exact Hs | exact Hq1].
Defined.
